(** * scan-deps: import extraction, dependency resolution and graph
      construction of [crates/nockup/scripts/scan-deps.py]

    A shallow embedding of the script's functions.  Python [str] values are
    Rocq [string]s whose characters are the code points below 256; a Python
    [dict] is an insertion-ordered association list with unique keys; the
    warnings printed to the error stream are collected in a list that every
    printing function returns next to its value. *)

From Stdlib Require Import List String Ascii Bool Arith Lia Permutation Sorted.
Import ListNotations.
Local Open Scope list_scope.
Local Open Scope string_scope.

Set Implicit Arguments.

(** ** Python string primitives *)

Module PyStr.

(** [str.isspace] on one character, for the code points 0..255. *)
Definition isspace (c : ascii) : bool :=
  let n := nat_of_ascii c in
  (((9 <=? n) && (n <=? 13)) || ((28 <=? n) && (n <=? 32))
   || (n =? 133) || (n =? 160))%nat.

Fixpoint lstrip (s : string) : string :=
  match s with
  | EmptyString => EmptyString
  | String c s' => if isspace c then lstrip s' else s
  end.

Fixpoint rstrip (s : string) : string :=
  match s with
  | EmptyString => EmptyString
  | String c s' =>
      match rstrip s' with
      | EmptyString => if isspace c then EmptyString else String c EmptyString
      | r => String c r
      end
  end.

(** [s.strip()] *)
Definition strip (s : string) : string := rstrip (lstrip s).

(** [s.startswith(p)] and [s.endswith(p)] *)
Fixpoint startswith (s p : string) {struct p} : bool :=
  match p, s with
  | EmptyString, _ => true
  | String _ _, EmptyString => false
  | String a p', String b s' => Ascii.eqb a b && startswith s' p'
  end.

Fixpoint endswith (s p : string) : bool :=
  (s =? p) ||
  match s with
  | EmptyString => false
  | String _ s' => endswith s' p
  end.

(** [c in s] for a one-character [c] *)
Fixpoint contains (c : ascii) (s : string) : bool :=
  match s with
  | EmptyString => false
  | String a s' => Ascii.eqb a c || contains c s'
  end.

(** Truth value of a string: [if s:] *)
Definition truthy (s : string) : bool :=
  match s with EmptyString => false | _ => true end.

(** Pieces of [s] between the characters satisfying [p]; empty pieces are
    kept, so the result is never the empty list. *)
Fixpoint split_by (p : ascii -> bool) (s : string) : list string :=
  match s with
  | EmptyString => [EmptyString]
  | String c s' =>
      if p c then EmptyString :: split_by p s'
      else match split_by p s' with
           | [] => [String c EmptyString]
           | x :: xs => String c x :: xs
           end
  end.

(** [s.split(c)] for a one-character separator *)
Definition split (c : ascii) (s : string) : list string :=
  split_by (Ascii.eqb c) s.

(** [s.split()]: maximal runs of non-whitespace characters *)
Definition split_ws (s : string) : list string :=
  filter truthy (split_by isspace s).

(** [sep.join(l)] *)
Fixpoint join (sep : string) (l : list string) : string :=
  match l with
  | [] => EmptyString
  | [x] => x
  | x :: xs => x ++ sep ++ join sep xs
  end.

(** [s[n:]] *)
Fixpoint drop (n : nat) (s : string) : string :=
  match n, s with
  | O, _ => s
  | S _, EmptyString => EmptyString
  | S k, String _ s' => drop k s'
  end.

(** [s[:n]] *)
Fixpoint take (n : nat) (s : string) : string :=
  match n, s with
  | O, _ => EmptyString
  | S _, EmptyString => EmptyString
  | S k, String c s' => String c (take k s')
  end.

(** [l[-1]] of a list of strings (the callers apply it to the result of
    [split], which is never empty) *)
Definition last_item (l : list string) : string := last l EmptyString.

(** [s.rfind(c)] for a one-character [c]: [None] stands for -1 *)
Fixpoint rfind (c : ascii) (s : string) : option nat :=
  match s with
  | EmptyString => None
  | String a s' =>
      match rfind c s' with
      | Some i => Some (S i)
      | None => if Ascii.eqb a c then Some 0 else None
      end
  end.

(** [s.replace(old, new)] for a non-empty [old]: the leftmost occurrences,
    not overlapping.  [skip] counts the characters of a match that are
    still to be passed over. *)
Fixpoint replace_from (old new : string) (skip : nat) (s : string) : string :=
  match s with
  | EmptyString => EmptyString
  | String c s' =>
      match skip with
      | S k => replace_from old new k s'
      | O =>
          if startswith s old
          then new ++ replace_from old new (String.length old - 1) s'
          else String c (replace_from old new 0 s')
      end
  end.

Definition replace (old new s : string) : string := replace_from old new 0 s.

(** membership in a tuple or list of strings: [x in (a, b, c)] *)
Definition elem (x : string) (l : list string) : bool :=
  existsb (String.eqb x) l.

End PyStr.

Import PyStr.

(** ** Insertion-ordered dictionaries *)

Module Dict.
Section Dict.
Variable V : Type.

Definition t := list (string * V).

Definition empty : t := [].

Definition keys (d : t) : list string := map fst d.

Definition items (d : t) : list (string * V) := d.

Fixpoint get (k : string) (d : t) : option V :=
  match d with
  | [] => None
  | (k', v) :: r => if k =? k' then Some v else get k r
  end.

(** [k in d] *)
Definition mem (k : string) (d : t) : bool :=
  match get k d with Some _ => true | None => false end.

(** [d[k] = v]: a present key keeps its place, a new key goes last *)
Fixpoint set (k : string) (v : V) (d : t) : t :=
  match d with
  | [] => [(k, v)]
  | (k', v') :: r =>
      if k =? k' then (k, v) :: r else (k', v') :: set k v r
  end.
End Dict.
End Dict.

(** ** Diagnostics and the files of a scan *)

(** What iterating over an opened text file delivers: lines, then the end of
    the file or an exception.  [open] raising is [Raise] with no line before
    it; a decoding error met later in the file is a [Raise] after the lines
    already decoded. *)
Inductive line_iter : Type :=
| Eof : line_iter
| Raise : string -> line_iter
| Line : string -> line_iter -> line_iter.

(** A [Path] found by [rglob], with what reading it delivers:
    [parent_rel] are the segments of [hoon_file.parent.relative_to(directory)]
    and [name] is [hoon_file.name]. *)
Record Path : Type := mkPath {
  parent_rel : list string;
  name : string;
  content : line_iter
}.

(** The scan directory: its own [name] and what [rglob("*.hoon")] yields,
    in the order the file system enumerates it. *)
Record Directory : Type := mkDirectory {
  dir_name : string;
  rglob_hoon : list Path
}.

(** The three warnings the script prints *)
Inductive diagnostic : Type :=
| CouldNotRead (file_path : Path) (e : string)
| Ambiguous (dep_name current_file_dir : string) (matches : list string)
| CouldNotResolve (dep_name full_key : string).

(** A value together with the warnings printed while computing it *)
Definition Out (A : Type) : Type := (A * list diagnostic)%type.

Definition ret {A} (a : A) : Out A := (a, []).

Definition warn (d : diagnostic) : Out unit := (tt, [d]).

Definition bind {A B} (m : Out A) (f : A -> Out B) : Out B :=
  let (a, w) := m in let (b, w') := f a in (b, (w ++ w')%list).

Notation "x <- m ;; k" := (bind m (fun x => k))
  (at level 61, m at next level, right associativity).
Notation "m ;;; k" := (bind m (fun _ => k))
  (at level 61, right associativity).

(** (full_path, install_path, filename) *)
Definition FileRecord : Type := (Path * string * string)%type.

Definition Files : Type := Dict.t FileRecord.

Definition Graph : Type := Dict.t (list string).

(** The line feed *)
Definition lf : string := String (ascii_of_nat 10) EmptyString.

(** ** get_dependencies *)

(** "Remove * prefix" *)
Definition unstarred (d : string) : string :=
  if startswith d "*" then drop 1 d else d.

(** One specifier of a [/+], [/-] or [/#] line: the body of the inner loop. *)
Definition add_specifier (deps : list string) (d : string) : list string :=
  let d := strip d in
  let d := unstarred d in
  let d := if contains "="%char d then strip (last_item (split "="%char d)) else d in
  if truthy d then (deps ++ [d])%list else deps.

(** The [/=] branch *)
Definition add_path_import (deps : list string) (parts : list string) : list string :=
  if (3 <=? List.length parts)%nat then
    let path := nth 2 parts EmptyString in
    let path := if startswith path "/" then drop 1 path else path in
    if truthy path then (deps ++ [path])%list else deps
  else deps.

(** The loop over the lines of the file.  The result is the list [deps] when
    the loop is left, with the exception that ended it, if any. *)
Fixpoint scan_lines (f : line_iter) (deps : list string)
  : list string * option string :=
  match f with
  | Eof => (deps, None)
  | Raise e => (deps, Some e)
  | Line raw rest =>
      let line := strip raw in
      if negb (truthy line) then scan_lines rest deps
      else if negb (startswith line "/" || startswith line "::") then (deps, None)
      else if startswith line "::" then scan_lines rest deps
      else
        match split_ws line with
        | [] => scan_lines rest deps
        | prefix :: args =>
            if elem prefix ["/+"; "/-"; "/#"] then
              let dep_str := join " " args in
              scan_lines rest (fold_left add_specifier (split ","%char dep_str) deps)
            else if prefix =? "/=" then
              scan_lines rest (add_path_import deps (prefix :: args))
            else scan_lines rest deps
        end
  end.

Definition get_dependencies (file_path : Path) : Out (list string) :=
  match scan_lines (content file_path) [] with
  | (deps, None) => ret deps
  | (deps, Some e) => warn (CouldNotRead file_path e) ;;; ret deps
  end.

(** ** find_hoon_files *)

(** [hoon_file.stem]: the name up to its last dot, unless that dot is the
    first or the last character of the name. *)
Definition stem (hoon_file : Path) : string :=
  let name := name hoon_file in
  match rfind "."%char name with
  | Some i =>
      if ((0 <? i) && (i <? String.length name - 1))%nat then take i name
      else name
  | None => name
  end.

(** [str(rel_dir)] of a relative path given by its segments *)
Definition str_of_relative (segments : list string) : string :=
  match segments with
  | [] => "."
  | _ => join "/" segments
  end.

(** The body of the loop over [directory.rglob("*.hoon")].  [os.sep] is the
    slash, so replacing it by a slash leaves [str(rel_dir)] as it is. *)
Definition add_hoon_file (directory : Directory) (files : Files)
  (hoon_file : Path) : Files :=
  let filename := stem hoon_file in
  let rel_dir := str_of_relative (parent_rel hoon_file) in
  let rel_dir_str := if negb (rel_dir =? ".") then rel_dir else "" in
  let package_key :=
    if truthy rel_dir_str then rel_dir_str ++ "/" ++ filename else filename in
  let scan_dir_name := dir_name directory in
  let install_path :=
    if truthy rel_dir_str then scan_dir_name ++ "/" ++ rel_dir_str
    else scan_dir_name in
  Dict.set package_key (hoon_file, install_path, name hoon_file) files.

Definition find_hoon_files (directory : Directory) : Files :=
  fold_left (add_hoon_file directory) (rglob_hoon directory) (Dict.empty _).

(** ** resolve_dependency *)

(** The keys collected by the last-resort search *)
Definition suffix_matches (dep_name : string) (files : Files) : list string :=
  filter (fun k => endswith k ("/" ++ dep_name) || (k =? dep_name))
         (Dict.keys files).

(** The key tried for the same directory, and the one tried for the parent
    directory when [current_file_dir] has more than one segment *)
Definition same_dir_key (current_file_dir dep_name : string) : string :=
  current_file_dir ++ "/" ++ dep_name.

Definition sibling_key (current_file_dir dep_name : string) : option string :=
  let parts := split "/"%char current_file_dir in
  if (1 <? List.length parts)%nat then
    let parent := join "/" (removelast parts) in
    Some (parent ++ "/" ++ dep_name)
  else None.

(** The last-resort search, with its warning *)
Definition search_all (dep_name current_file_dir : string) (files : Files)
  : Out (option string) :=
  let matches := suffix_matches dep_name files in
  match matches with
  | [] => ret None
  | [m] => ret (Some m)
  | m :: _ => warn (Ambiguous dep_name current_file_dir matches) ;;; ret (Some m)
  end.

(** The function from "Try same directory first" on, where [dep_name] is the
    name after the full-path test *)
Definition resolve_name (dep_name current_file_dir : string) (files : Files)
  : Out (option string) :=
  if truthy current_file_dir
     && Dict.mem (same_dir_key current_file_dir dep_name) files
  then ret (Some (same_dir_key current_file_dir dep_name))
  else if Dict.mem dep_name files then ret (Some dep_name)
  else
    match (if truthy current_file_dir
           then sibling_key current_file_dir dep_name else None) with
    | Some key =>
        if Dict.mem key files then ret (Some key)
        else search_all dep_name current_file_dir files
    | None => search_all dep_name current_file_dir files
    end.

Definition resolve_dependency (dep_name current_file_dir : string)
  (files : Files) : Out (option string) :=
  if contains "/"%char dep_name then
    if Dict.mem dep_name files then ret (Some dep_name)
    else
      let basename := last_item (split "/"%char dep_name) in
      resolve_name basename current_file_dir files
  else resolve_name dep_name current_file_dir files.

(** ** build_dependency_graph *)

(** A [for] loop whose body updates a state and may print *)
Fixpoint for_each {A S : Type} (l : list A) (s : S) (body : S -> A -> Out S)
  : Out S :=
  match l with
  | [] => ret s
  | a :: r => s' <- body s a ;; for_each r s' body
  end.

(** The prefix stripped before each resolution *)
Definition strip_scan_dir (scan_dir_name dep_name : string) : string :=
  if startswith dep_name (scan_dir_name ++ "/")
  then drop (String.length scan_dir_name + 1) dep_name
  else dep_name.

(** The body of the loop over [raw_deps] *)
Definition resolve_raw_dep (scan_dir_name full_key file_dir : string)
  (files : Files) (resolved_deps : list string) (dep_name : string)
  : Out (list string) :=
  let dep_name := strip_scan_dir scan_dir_name dep_name in
  resolved <- resolve_dependency dep_name file_dir files ;;
  match resolved with
  | Some key =>
      if truthy key then ret (resolved_deps ++ [key])%list
      else warn (CouldNotResolve dep_name full_key) ;;; ret resolved_deps
  | None => warn (CouldNotResolve dep_name full_key) ;;; ret resolved_deps
  end.

(** The body of the loop over [files.items()] *)
Definition add_node (scan_dir_name : string) (files : Files) (graph : Graph)
  (item : string * FileRecord) : Out Graph :=
  let '(full_key, (file_path, file_dir, _)) := item in
  raw_deps <- get_dependencies file_path ;;
  resolved_deps <-
    for_each raw_deps [] (resolve_raw_dep scan_dir_name full_key file_dir files) ;;
  ret (Dict.set full_key resolved_deps graph).

Definition build_dependency_graph (files : Files) (scan_dir : Directory)
  : Out Graph :=
  let scan_dir_name := dir_name scan_dir in
  for_each (Dict.items files) (Dict.empty _) (add_node scan_dir_name files).

(** ** generate_registry_toml *)

(** The double quote character *)
Definition dq : string := String (ascii_of_nat 34) EmptyString.

Definition quoted (s : string) : string := dq ++ s ++ dq.

(** [sorted(l, key=lambda x: x[0])]: a stable sort of the items by key,
    strings compared character by character *)
Fixpoint insert_item {V : Type} (x : string * V) (l : list (string * V))
  : list (string * V) :=
  match l with
  | [] => [x]
  | y :: r => if (fst x <=? fst y) then x :: l else y :: insert_item x r
  end.

Fixpoint sorted_items {V : Type} (l : list (string * V)) : list (string * V) :=
  match l with
  | [] => []
  | x :: r => insert_item x (sorted_items r)
  end.

(** [graph.get(package_key, [])] *)
Definition graph_get (graph : Graph) (package_key : string) : list string :=
  match Dict.get package_key graph with
  | Some deps => deps
  | None => []
  end.

(** The fully qualified name of a package key *)
Definition qualified (workspace_name package_key : string) : string :=
  workspace_name ++ "/" ++ package_key.

(** The lines one iteration of the package loop appends *)
Definition package_lines (workspace_name : string) (graph : Graph)
  (item : string * FileRecord) : list string :=
  let '(package_key, (_, install_path, hoon_filename)) := item in
  let deps := graph_get graph package_key in
  [ "[[package]]";
    "name = " ++ quoted (qualified workspace_name package_key);
    "workspace = " ++ quoted workspace_name;
    "path = " ++ quoted install_path;
    "file = " ++ quoted hoon_filename;
    match deps with
    | [] => "dependencies = []"
    | _ =>
        let dep_list :=
          join ", " (map (fun d => quoted (qualified workspace_name d)) deps) in
        "dependencies = [" ++ dep_list ++ "]"
    end;
    "" ].

(** The aliases one iteration of the package loop collects *)
Definition package_aliases (workspace_name : string)
  (item : string * FileRecord) : list (string * string) :=
  let '(package_key, (_, _, hoon_filename)) := item in
  let filename_stem := replace ".hoon" "" hoon_filename in
  if startswith package_key "common/ztd/"
     && elem filename_stem ["one"; "two"; "four"; "five"; "six"; "seven"; "eight"]
  then [(qualified workspace_name filename_stem,
         qualified workspace_name package_key)]
  else [].

(** The body of the package loop, on the pair of [lines] and
    [aliases_to_generate] *)
Definition add_package (workspace_name : string) (graph : Graph)
  (st : list string * list (string * string)) (item : string * FileRecord)
  : list string * list (string * string) :=
  let (lines, aliases_to_generate) := st in
  ((lines ++ package_lines workspace_name graph item)%list,
   (aliases_to_generate ++ package_aliases workspace_name item)%list).

Definition special_aliases : list (string * string) :=
  [("zeke", "common/zeke"); ("zoon", "common/zoon"); ("zose", "common/zose")].

Definition add_special_alias (workspace_name : string) (files : Files)
  (aliases_to_generate : list (string * string)) (alias : string * string)
  : list (string * string) :=
  let (alias_name, target_path) := alias in
  let full_target_key := qualified workspace_name target_path in
  if elem full_target_key (map (qualified workspace_name) (Dict.keys files))
  then (aliases_to_generate
        ++ [(qualified workspace_name alias_name, full_target_key)])%list
  else aliases_to_generate.

Definition alias_lines (alias : string * string) : list string :=
  let (alias_name, target_name) := alias in
  [ "[[alias]]"; "name = " ++ quoted alias_name;
    "target = " ++ quoted target_name; "" ].

Definition rule_line : string :=
  "# ============================================================================".

(** The list [lines] at the end of the function *)
Definition registry_lines (workspace_name git_url ref description root_path : string)
  (files : Files) (graph : Graph) : list string :=
  let lines :=
    [ rule_line;
      "# " ++ workspace_name ++ " workspace packages";
      "# Generated by scan-deps-v2.py";
      rule_line;
      "";
      "[workspace." ++ workspace_name ++ "]";
      "git_url = " ++ quoted git_url;
      "ref = " ++ quoted ref;
      "description = " ++ quoted description;
      "root_path = " ++ quoted root_path;
      "" ] in
  let sorted_files := sorted_items (Dict.items files) in
  let (lines, aliases_to_generate) :=
    fold_left (add_package workspace_name graph) sorted_files (lines, []) in
  let aliases_to_generate :=
    fold_left (add_special_alias workspace_name files) special_aliases
              aliases_to_generate in
  match aliases_to_generate with
  | [] => lines
  | _ =>
      (lines ++ [rule_line; "# Aliases"; rule_line; ""]
       ++ fold_left (fun ls a => ls ++ alias_lines a) aliases_to_generate [])%list
  end.

Definition generate_registry_toml
  (workspace_name git_url ref description root_path : string)
  (files : Files) (graph : Graph) (scan_dir : Directory) : string :=
  join lf (registry_lines workspace_name git_url ref description root_path
              files graph).


(** ** Views used in the statements *)

(** The list the graph builder stores for one item of the file map *)
Definition adjacency (scan_dir_name : string) (files : Files)
  (item : string * FileRecord) : list string :=
  let '(full_key, (file_path, file_dir, _)) := item in
  fst (for_each (fst (get_dependencies file_path)) []
         (resolve_raw_dep scan_dir_name full_key file_dir files)).

(** The first path segment of a key: [key.split('/')[0]] *)
Definition first_segment (key : string) : string :=
  hd EmptyString (split "/"%char key).

(** What rules 3 and 5 alone give for a name: the root-level key when it is
    in the file map, else the outcome of the last-resort search *)
Definition root_or_search (dep_name current_file_dir : string) (files : Files)
  : Out (option string) :=
  if Dict.mem dep_name files then ret (Some dep_name)
  else search_all dep_name current_file_dir files.

(** An install path is the scan directory's name, alone or followed by a
    slash and the relative directory. *)
Definition under_scan_dir (scan_dir_name install_path : string) : Prop :=
  install_path = scan_dir_name
  \/ exists rel, install_path = scan_dir_name ++ "/" ++ rel.

(** A file object that delivers the lines [ls] and then goes on as [tail] *)
Definition lines_then (ls : list string) (tail : line_iter) : line_iter :=
  fold_right Line tail ls.

(** The classes of header lines.  A line is blank when nothing is left of
    it after trimming, a comment when the trimmed line starts with two
    colons, and an import directive when its first whitespace-separated
    token is one of the four prefixes the extractor acts on. *)
Definition is_blank (raw : string) : bool := negb (truthy (strip raw)).

Definition is_comment (raw : string) : bool := startswith (strip raw) "::".

Definition import_prefixes : list string := ["/+"; "/-"; "/#"; "/="].

Definition is_import_directive (raw : string) : bool :=
  match split_ws (strip raw) with
  | prefix :: _ => elem prefix import_prefixes
  | [] => false
  end.

(** A line that ends the header: not blank, and starting neither with the
    slash nor with the comment marker *)
Definition ends_header (raw : string) : bool :=
  truthy (strip raw)
  && negb (startswith (strip raw) "/" || startswith (strip raw) "::").

(** ** Sample trees *)

(** [hoon/a/x.hoon] imports the bare name [y]; [hoon/a/y.hoon] and
    [hoon/y.hoon] both exist. *)
Definition same_dir_tree : Directory :=
  mkDirectory "hoon"
    [ mkPath ["a"] "x.hoon" (Line ("/+  y" ++ lf) Eof);
      mkPath ["a"] "y.hoon" Eof;
      mkPath [] "y.hoon" Eof ].

(** Two files named [dep] in different directories, and [app] at the root
    importing [dep]; the same tree enumerated in two orders. *)
Definition ambiguous_tree : Directory :=
  mkDirectory "hoon"
    [ mkPath ["pkg"] "dep.hoon" Eof;
      mkPath ["other"] "dep.hoon" Eof;
      mkPath [] "app.hoon" (Line ("/+  dep" ++ lf) Eof) ].

Definition ambiguous_tree_reordered : Directory :=
  mkDirectory "hoon"
    [ mkPath ["other"] "dep.hoon" Eof;
      mkPath ["pkg"] "dep.hoon" Eof;
      mkPath [] "app.hoon" (Line ("/+  dep" ++ lf) Eof) ].

(** A scan directory [a] that holds a directory of the same name:
    [a/x.hoon] names the path [/a/y]; [a/a/y.hoon] and [a/y.hoon] exist. *)
Definition nested_tree : Directory :=
  mkDirectory "a"
    [ mkPath [] "x.hoon" (Line ("/=  y  /a/y" ++ lf) Eof);
      mkPath ["a"] "y.hoon" Eof;
      mkPath [] "y.hoon" Eof ].

(** A comment line of 64 bytes, the line feed included *)
Definition long_comment_line : string :=
  ":: ------------------------------------------------------------" ++ lf.

(** ** Views used in the further properties *)

(** The relative directory, the key and the install path that
    [find_hoon_files] computes for one path *)
Definition rel_dir_str_of (hoon_file : Path) : string :=
  let rel_dir := str_of_relative (parent_rel hoon_file) in
  if negb (rel_dir =? ".") then rel_dir else "".

Definition package_key_of (hoon_file : Path) : string :=
  if truthy (rel_dir_str_of hoon_file)
  then rel_dir_str_of hoon_file ++ "/" ++ stem hoon_file
  else stem hoon_file.

Definition install_path_of (directory : Directory) (hoon_file : Path) : string :=
  if truthy (rel_dir_str_of hoon_file)
  then dir_name directory ++ "/" ++ rel_dir_str_of hoon_file
  else dir_name directory.

(** The name the rules after the full-path test work on: the last segment
    of a token with a slash, the token itself otherwise *)
Definition bare_name (dep_name : string) : string :=
  if contains "/"%char dep_name then last_item (split "/"%char dep_name)
  else dep_name.

(** The edge, if any, that one raw token gives *)
Definition edge_of (scan_dir_name file_dir : string) (files : Files)
  (dep_name : string) : list string :=
  match fst (resolve_dependency (strip_scan_dir scan_dir_name dep_name)
               file_dir files) with
  | Some key => if truthy key then [key] else []
  | None => []
  end.

Definition is_could_not_resolve (d : diagnostic) : bool :=
  match d with
  | CouldNotResolve _ _ => true
  | _ => false
  end.

(** How many times a line occurs in a list of lines *)
Definition count_line (line : string) (lines : list string) : nat :=
  List.length (filter (String.eqb line) lines).

(** The list [aliases_to_generate] at the end of [generate_registry_toml] *)
Definition collected_aliases (workspace_name : string) (files : Files)
  : list (string * string) :=
  fold_left (add_special_alias workspace_name files) special_aliases
    (flat_map (package_aliases workspace_name)
       (sorted_items (Dict.items files))).

(** The order of the package blocks *)
Definition key_le {V : Type} (x y : string * V) : Prop :=
  (fst x <=? fst y) = true.

(** The lines before the package blocks, and the lines after them *)
Definition heading_lines
  (workspace_name git_url ref description root_path : string) : list string :=
  [ rule_line;
    "# " ++ workspace_name ++ " workspace packages";
    "# Generated by scan-deps-v2.py";
    rule_line;
    "";
    "[workspace." ++ workspace_name ++ "]";
    "git_url = " ++ quoted git_url;
    "ref = " ++ quoted ref;
    "description = " ++ quoted description;
    "root_path = " ++ quoted root_path;
    "" ].

Definition alias_section (aliases : list (string * string)) : list string :=
  match aliases with
  | [] => []
  | _ =>
      ([rule_line; "# Aliases"; rule_line; ""]
       ++ fold_left (fun ls a => ls ++ alias_lines a) aliases [])%list
  end.

(** ** The manifest read back as text *)

Definition lf_char : ascii := ascii_of_nat 10.

Definition dq_char : ascii := ascii_of_nat 34.

(** The lines of a text: the pieces between its line feeds *)
Definition text_lines (text : string) : list string := split lf_char text.

(** Of the pieces between the double quotes of a line, those that stand
    between an opening and a closing quote *)
Fixpoint odd_pieces (pieces : list string) : list string :=
  match pieces with
  | _ :: x :: r =>
      match r with
      | [] => []
      | _ :: _ => x :: odd_pieces r
      end
  | _ => []
  end.

Definition quoted_strings (line : string) : list string :=
  odd_pieces (split dq_char line).

(** The names a reader finds in the dependency lists of a manifest: the
    quoted strings of the lines that start with [dependencies = ] *)
Definition dependency_names_of_lines (lines : list string) : list string :=
  flat_map (fun l => if startswith l "dependencies = "
                     then quoted_strings l else []) lines.

(** The names of the package records a reader finds: the first quoted
    string of the [name = ] line that follows a [[[package]]] line *)
Fixpoint package_names_of_lines (lines : list string) : list string :=
  match lines with
  | [] => []
  | l :: rest =>
      ((if l =? "[[package]]" then
          match rest with
          | n :: _ =>
              if startswith n "name = " then firstn 1 (quoted_strings n)
              else []
          | [] => []
          end
        else [])
       ++ package_names_of_lines rest)%list
  end.

(** No name or segment of an enumerated path holds the character [c] *)
Definition paths_free (c : ascii) (directory : Directory) : Prop :=
  forall p, In p (rglob_hoon directory) ->
    contains c (name p) = false
    /\ Forall (fun segment => contains c segment = false) (parent_rel p).

(** A directory whose name holds double quotes, with a file [ghost] in it,
    and [app] at the root importing [ghost] *)
Definition quote_tree : Directory :=
  mkDirectory "hoon"
    [ mkPath ["x" ++ dq ++ ", " ++ dq ++ "ws"] "ghost.hoon" Eof;
      mkPath [] "app.hoon" (Line ("/+  ghost" ++ lf) Eof) ].

(** A directory whose name holds a line feed, with a file [ghost] in it,
    a file [other] at the root, and [app] importing both *)
Definition line_feed_tree : Directory :=
  mkDirectory "hoon"
    [ mkPath ["a" ++ lf ++ "dependencies = x"] "ghost.hoon" Eof;
      mkPath [] "other.hoon" Eof;
      mkPath [] "app.hoon" (Line ("/+  ghost, other" ++ lf) Eof) ].

(** * Properties *)

(** ** The primitives on small inputs *)

Example split_ws_example :
  split_ws (" a  b" ++ String (ascii_of_nat 9) "") = ["a"; "b"]
  /\ split_ws "" = [].
Proof. split; reflexivity. Qed.

Example split_example :
  split ","%char "a,,b," = ["a"; ""; "b"; ""]
  /\ split ","%char "" = [""]
  /\ last_item (split "="%char "a=b=c") = "c"
  /\ removelast (split "/"%char "x") = [].
Proof. repeat split; reflexivity. Qed.

Example strip_example :
  strip ("  /+  foo " ++ lf) = "/+  foo" /\ strip (" " ++ lf) = "".
Proof. split; reflexivity. Qed.

Example stem_example :
  stem (mkPath [] "eight.hoon" Eof) = "eight"
  /\ stem (mkPath [] "a.b.hoon" Eof) = "a.b"
  /\ stem (mkPath [] ".hoon" Eof) = ".hoon".
Proof. repeat split; reflexivity. Qed.

Example find_hoon_files_example :
  find_hoon_files
    (mkDirectory "common" [mkPath ["ztd"] "eight.hoon" Eof])
  = [("ztd/eight",
      (mkPath ["ztd"] "eight.hoon" Eof, "common/ztd", "eight.hoon"))].
Proof. reflexivity. Qed.

Example get_dependencies_example :
  get_dependencies
    (mkPath ["wallet"] "app.hoon"
       (Line (":: header" ++ lf)
       (Line ("/?  310" ++ lf)
       (Line ("/+  foo, *bar=baz ,  *qux,," ++ lf)
       (Line lf
       (Line ("/=  common  /common/zeke" ++ lf)
       (Line ("|%" ++ lf)
       (Line ("/-  late" ++ lf) Eof))))))))
  = (["foo"; "baz"; "qux"; "common/zeke"], []).
Proof. reflexivity. Qed.


(** ** The output pair *)

Lemma fst_bind {A B} (m : Out A) (f : A -> Out B) :
  fst (bind m f) = fst (f (fst m)).
Proof.
  destruct m as [a w]; simpl. destruct (f a); reflexivity.
Qed.

Lemma snd_bind {A B} (m : Out A) (f : A -> Out B) :
  snd (bind m f) = (snd m ++ snd (f (fst m)))%list.
Proof.
  destruct m as [a w]; simpl. destruct (f a); reflexivity.
Qed.

(** A loop whose body prints nothing that matters to the state is a fold. *)
Lemma fst_for_each {A S} (l : list A) (body : S -> A -> Out S) :
  forall s, fst (for_each l s body) = fold_left (fun s a => fst (body s a)) l s.
Proof.
  induction l as [|a r IH]; intros s; simpl; [reflexivity|].
  rewrite fst_bind. apply IH.
Qed.

(** ** Dictionaries *)

Section DictFacts.
Variable V : Type.
Implicit Types (d : Dict.t V) (k : string) (v : V).

Lemma get_Some_In d k v : Dict.get k d = Some v -> In (k, v) d.
Proof.
  induction d as [|[k' v'] r IH]; simpl; [discriminate|].
  destruct (String.eqb_spec k k') as [->|Hne]; intros H.
  - inversion H; subst; now left.
  - right; auto.
Qed.

Lemma mem_In d k : Dict.mem k d = true <-> In k (Dict.keys d).
Proof.
  unfold Dict.mem.
  induction d as [|[k' v'] r IH]; simpl.
  - split; [discriminate | tauto].
  - destruct (String.eqb_spec k k') as [->|Hne].
    + split; auto.
    + rewrite IH. split; [auto | intros [Heq|H]; [congruence | exact H]].
Qed.

Lemma mem_false_not_In d k : Dict.mem k d = false <-> ~ In k (Dict.keys d).
Proof.
  rewrite <- mem_In. destruct (Dict.mem k d); split; congruence.
Qed.

Lemma In_get d k v :
  NoDup (Dict.keys d) -> In (k, v) d -> Dict.get k d = Some v.
Proof.
  induction d as [|[k' v'] r IH]; simpl; [tauto|].
  intros Hnd [Heq|Hin].
  - inversion Heq; subst. now rewrite String.eqb_refl.
  - inversion Hnd as [|? ? Hnotin Hnd']; subst.
    destruct (String.eqb_spec k k') as [->|Hne]; [|auto].
    exfalso; apply Hnotin. change (In (fst (k', v)) (map fst r)).
    now apply in_map.
Qed.

Lemma set_fresh d k v : ~ In k (Dict.keys d) -> Dict.set k v d = (d ++ [(k, v)])%list.
Proof.
  induction d as [|[k' v'] r IH]; simpl; [reflexivity|].
  intros Hnotin. destruct (String.eqb_spec k k') as [->|Hne].
  - exfalso; apply Hnotin; now left.
  - rewrite IH; [reflexivity | tauto].
Qed.

Lemma keys_set_present d k v :
  In k (Dict.keys d) -> Dict.keys (Dict.set k v d) = Dict.keys d.
Proof.
  induction d as [|[k' v'] r IH]; simpl; [tauto|].
  intros Hin. destruct (String.eqb_spec k k') as [->|Hne]; simpl.
  - reflexivity.
  - rewrite IH; [reflexivity|]. destruct Hin; [congruence | assumption].
Qed.

Lemma NoDup_keys_set d k v :
  NoDup (Dict.keys d) -> NoDup (Dict.keys (Dict.set k v d)).
Proof.
  intros Hnd. destruct (in_dec string_dec k (Dict.keys d)) as [Hin|Hnotin].
  - now rewrite keys_set_present.
  - rewrite set_fresh by assumption. unfold Dict.keys in *.
    rewrite map_app; simpl.
    apply NoDup_app; [assumption | repeat constructor; simpl; tauto |].
    intros x Hx [<-|[]]. contradiction.
Qed.

(** Assigning the items of a list with distinct keys, none of them in the
    dictionary yet, appends them in order. *)
Lemma fold_set_fresh {A} (key : A -> string) (val : A -> V) (l : list A) :
  forall d,
    NoDup (map key l) ->
    (forall a, In a l -> ~ In (key a) (Dict.keys d)) ->
    fold_left (fun d a => Dict.set (key a) (val a) d) l d
    = (d ++ map (fun a => (key a, val a)) l)%list.
Proof.
  induction l as [|a r IH]; intros d Hnd Hfresh; simpl.
  - now rewrite app_nil_r.
  - inversion Hnd as [|? ? Hnotin Hnd']; subst.
    rewrite set_fresh by (apply Hfresh; now left).
    rewrite IH; [now rewrite <- app_assoc | assumption |].
    intros b Hb. unfold Dict.keys. rewrite map_app, in_app_iff; simpl.
    intros [Hin|[Heq|[]]].
    + apply (Hfresh b); [now right | exact Hin].
    + apply Hnotin. rewrite Heq. now apply in_map.
Qed.
End DictFacts.

(** ** Discovery *)

Lemma find_hoon_files_NoDup (directory : Directory) :
  NoDup (Dict.keys (find_hoon_files directory)).
Proof.
  unfold find_hoon_files.
  assert (H : forall l d, NoDup (Dict.keys d) ->
            NoDup (Dict.keys (fold_left (add_hoon_file directory) l d))).
  { induction l as [|p r IH]; intros d Hd; simpl; [assumption|].
    apply IH. unfold add_hoon_file. now apply NoDup_keys_set. }
  apply H. constructor.
Qed.

(** ** The resolver returns keys of the file map *)

Lemma suffix_matches_keys dep_name (files : Files) k :
  In k (suffix_matches dep_name files) -> In k (Dict.keys files).
Proof.
  unfold suffix_matches. rewrite filter_In. tauto.
Qed.

Lemma search_all_sound dep_name dir (files : Files) k :
  fst (search_all dep_name dir files) = Some k -> In k (Dict.keys files).
Proof.
  unfold search_all.
  destruct (suffix_matches dep_name files) as [|m [|m' r]] eqn:E; simpl;
    try discriminate; intros H; inversion H; subst;
    apply (suffix_matches_keys dep_name); rewrite E; now left.
Qed.

Lemma resolve_name_sound dep_name dir (files : Files) k :
  fst (resolve_name dep_name dir files) = Some k -> In k (Dict.keys files).
Proof.
  unfold resolve_name.
  destruct (truthy dir && Dict.mem (same_dir_key dir dep_name) files) eqn:E1.
  { simpl. intros H; inversion H; subst.
    apply andb_true_iff in E1. now apply mem_In. }
  destruct (Dict.mem dep_name files) eqn:E2.
  { simpl. intros H; inversion H; subst. now apply mem_In. }
  destruct (if truthy dir then sibling_key dir dep_name else None) as [key|].
  - destruct (Dict.mem key files) eqn:E3.
    + simpl. intros H; inversion H; subst. now apply mem_In.
    + apply search_all_sound.
  - apply search_all_sound.
Qed.

Lemma resolve_dependency_sound dep_name dir (files : Files) k :
  fst (resolve_dependency dep_name dir files) = Some k -> In k (Dict.keys files).
Proof.
  unfold resolve_dependency.
  destruct (contains "/"%char dep_name).
  - destruct (Dict.mem dep_name files) eqn:E.
    + simpl. intros H; inversion H; subst. now apply mem_In.
    + apply resolve_name_sound.
  - apply resolve_name_sound.
Qed.

(** ** The adjacency list of one file *)

Lemma fst_resolve_raw_dep scan_dir_name full_key file_dir files acc dep_name :
  fst (resolve_raw_dep scan_dir_name full_key file_dir files acc dep_name)
  = match fst (resolve_dependency (strip_scan_dir scan_dir_name dep_name)
                 file_dir files) with
    | Some key => if truthy key then (acc ++ [key])%list else acc
    | None => acc
    end.
Proof.
  unfold resolve_raw_dep. rewrite fst_bind.
  destruct (fst (resolve_dependency _ _ _)) as [key|]; [|reflexivity].
  destruct (truthy key); reflexivity.
Qed.

Lemma resolved_deps_sound scan_dir_name full_key file_dir (files : Files) raw_deps :
  forall acc,
    Forall (fun t => In t (Dict.keys files)) acc ->
    Forall (fun t => In t (Dict.keys files))
      (fst (for_each raw_deps acc
              (resolve_raw_dep scan_dir_name full_key file_dir files))).
Proof.
  induction raw_deps as [|d r IH]; intros acc Hacc; simpl; [assumption|].
  rewrite fst_bind. apply IH. rewrite fst_resolve_raw_dep.
  destruct (fst (resolve_dependency _ _ _)) as [key|] eqn:E; [|assumption].
  destruct (truthy key); [|assumption].
  apply Forall_app; split; [assumption|].
  constructor; [|constructor]. now apply resolve_dependency_sound in E.
Qed.

Lemma resolved_deps_none scan_dir_name full_key file_dir (files : Files) raw_deps :
  (forall t, In t raw_deps ->
     fst (resolve_dependency (strip_scan_dir scan_dir_name t) file_dir files) = None) ->
  fst (for_each raw_deps []
         (resolve_raw_dep scan_dir_name full_key file_dir files)) = [].
Proof.
  induction raw_deps as [|d r IH]; intros Hnone; simpl; [reflexivity|].
  rewrite fst_bind, fst_resolve_raw_dep, (Hnone d) by now left.
  apply IH. intros t Ht. apply Hnone. now right.
Qed.

Lemma adjacency_sound scan_dir_name (files : Files) item t :
  In t (adjacency scan_dir_name files item) -> In t (Dict.keys files).
Proof.
  destruct item as [full_key [[file_path file_dir] fname]]; simpl.
  intros Hin.
  pose proof (resolved_deps_sound scan_dir_name full_key file_dir files
                (fst (get_dependencies file_path)) (Forall_nil _)) as H.
  rewrite Forall_forall in H. now apply H.
Qed.

(** ** The graph as a list of nodes *)

Lemma fst_add_node scan_dir_name (files : Files) graph item :
  fst (add_node scan_dir_name files graph item)
  = Dict.set (fst item) (adjacency scan_dir_name files item) graph.
Proof.
  destruct item as [full_key [[file_path file_dir] fname]].
  unfold add_node. rewrite !fst_bind. reflexivity.
Qed.

Lemma fold_left_pointwise {A S} (f g : S -> A -> S) (l : list A) :
  (forall s a, f s a = g s a) -> forall s, fold_left f l s = fold_left g l s.
Proof.
  intros Hfg. induction l as [|a r IH]; intros s; simpl; [reflexivity|].
  now rewrite Hfg.
Qed.

Lemma build_dependency_graph_nodes (files : Files) (scan_dir : Directory) :
  NoDup (Dict.keys files) ->
  fst (build_dependency_graph files scan_dir)
  = map (fun item => (fst item, adjacency (dir_name scan_dir) files item)) files.
Proof.
  intros Hnd. unfold build_dependency_graph. rewrite fst_for_each.
  rewrite (fold_left_pointwise _ (fun g item =>
             Dict.set (fst item) (adjacency (dir_name scan_dir) files item) g)).
  - unfold Dict.items. rewrite fold_set_fresh; [reflexivity | exact Hnd |].
    intros a _ [].
  - intros g item. apply fst_add_node.
Qed.

Lemma get_map_items {V W} (f : string * V -> W) (d : Dict.t V) k v :
  Dict.get k d = Some v ->
  Dict.get k (map (fun item => (fst item, f item)) d) = Some (f (k, v)).
Proof.
  induction d as [|[k' v'] r IH]; simpl; [discriminate|].
  destruct (String.eqb_spec k k') as [->|Hne]; intros H.
  - now inversion H.
  - auto.
Qed.

Lemma get_map_items_inv {V W} (f : string * V -> W) (d : Dict.t V) k w :
  Dict.get k (map (fun item => (fst item, f item)) d) = Some w ->
  exists v, Dict.get k d = Some v /\ w = f (k, v).
Proof.
  induction d as [|[k' v'] r IH]; simpl; [discriminate|].
  destruct (String.eqb_spec k k') as [->|Hne]; intros H.
  - inversion H. eauto.
  - auto.
Qed.

(** ** Claims about the graph *)

(** C2: the graph built from a discovered file map has exactly the
    discovered keys as its nodes (in the same order), every node carries the
    adjacency list of its file (the empty list when none of the file's tokens
    resolves, never a missing entry), and every edge target is a key of the
    file map. *)
Theorem graph_total_without_dangling_edges (directory scan_dir : Directory) :
  let files := find_hoon_files directory in
  let graph := fst (build_dependency_graph files scan_dir) in
  Dict.keys graph = Dict.keys files
  /\ (forall k rec, Dict.get k files = Some rec ->
        Dict.get k graph = Some (adjacency (dir_name scan_dir) files (k, rec)))
  /\ (forall k file_path file_dir filename,
        Dict.get k files = Some (file_path, file_dir, filename) ->
        (forall t, In t (fst (get_dependencies file_path)) ->
           fst (resolve_dependency (strip_scan_dir (dir_name scan_dir) t)
                  file_dir files) = None) ->
        Dict.get k graph = Some [])
  /\ (forall k deps t, Dict.get k graph = Some deps -> In t deps ->
        Dict.mem t files = true).
Proof.
  intros files graph.
  assert (Hg : graph = map (fun item =>
                  (fst item, adjacency (dir_name scan_dir) files item)) files).
  { apply build_dependency_graph_nodes, find_hoon_files_NoDup. }
  repeat split.
  - rewrite Hg. unfold Dict.keys. rewrite map_map. reflexivity.
  - intros k rec Hk. rewrite Hg. now apply get_map_items.
  - intros k file_path file_dir filename Hk Hnone. rewrite Hg.
    rewrite (get_map_items _ _ _ Hk). f_equal. simpl.
    now apply resolved_deps_none.
  - intros k deps t Hk Ht. rewrite Hg in Hk.
    apply get_map_items_inv in Hk. destruct Hk as [rec [_ ->]].
    apply mem_In. eapply adjacency_sound; eassumption.
Qed.

(** ** Strings: concatenation, splitting, first segments *)

Lemma append_assoc (a b c : string) : (a ++ b) ++ c = a ++ (b ++ c).
Proof.
  induction a as [|x a IH]; simpl; [reflexivity | now rewrite IH].
Qed.

Lemma split_by_not_nil p s : split_by p s <> [].
Proof.
  destruct s as [|c s]; simpl; [discriminate|].
  destruct (p c); [discriminate|].
  destruct (split_by p s); discriminate.
Qed.

Lemma startswith_append (a b : string) : startswith (a ++ b) a = true.
Proof.
  induction a as [|x a IH]; simpl; [reflexivity|].
  now rewrite Ascii.eqb_refl.
Qed.

Lemma startswith_refl (a : string) : startswith a a = true.
Proof.
  induction a as [|x a IH]; simpl; [reflexivity|].
  now rewrite Ascii.eqb_refl.
Qed.

(** Splitting at the first separator *)
Lemma split_append_sep c (a b : string) :
  contains c a = false ->
  split c (a ++ String c b) = a :: split c b.
Proof.
  unfold split. induction a as [|x a IH]; simpl; intros Hc.
  - now rewrite Ascii.eqb_refl.
  - apply orb_false_iff in Hc. destruct Hc as [Hx Ha].
    rewrite Ascii.eqb_sym, Hx. now rewrite IH.
Qed.

Lemma split_no_sep c (a : string) :
  contains c a = false -> split c a = [a].
Proof.
  unfold split. induction a as [|x a IH]; simpl; intros Hc; [reflexivity|].
  apply orb_false_iff in Hc. destruct Hc as [Hx Ha].
  rewrite Ascii.eqb_sym, Hx. now rewrite IH.
Qed.

Lemma first_segment_append (a b : string) :
  contains "/"%char a = false -> first_segment (a ++ "/" ++ b) = a.
Proof.
  intros Ha. unfold first_segment. simpl.
  now rewrite split_append_sep by exact Ha.
Qed.

(** ** The install paths of a discovered file map *)

Lemma In_set {V} (d : Dict.t V) k v k' v' :
  In (k', v') (Dict.set k v d) -> (k', v') = (k, v) \/ In (k', v') d.
Proof.
  induction d as [|[k0 v0] r IH]; simpl.
  - intros [H|[]]; auto.
  - destruct (String.eqb_spec k k0) as [->|Hne]; simpl.
    + intros [H|H]; auto.
    + intros [H|H]; auto. destruct (IH H); auto.
Qed.

Lemma find_hoon_files_install_path (directory : Directory) k file_path file_dir filename :
  Dict.get k (find_hoon_files directory) = Some (file_path, file_dir, filename) ->
  under_scan_dir (dir_name directory) file_dir.
Proof.
  intros Hget. apply get_Some_In in Hget. revert Hget.
  unfold find_hoon_files.
  assert (H : forall l (d : Files),
            (forall k p dir f, In (k, (p, dir, f)) d ->
               under_scan_dir (dir_name directory) dir) ->
            forall k p dir f,
              In (k, (p, dir, f)) (fold_left (add_hoon_file directory) l d) ->
              under_scan_dir (dir_name directory) dir).
  { induction l as [|hf r IH]; intros d Hd; simpl; [exact Hd|].
    apply IH. intros k0 p dir f Hin. unfold add_hoon_file in Hin.
    apply In_set in Hin. destruct Hin as [Heq|Hin]; [|eauto].
    inversion Heq; subst.
    destruct (truthy _); [right; eexists; reflexivity | now left]. }
  apply H. intros ? ? ? ? [].
Qed.

Lemma same_dir_key_first_segment scan_dir_name file_dir dep_name :
  contains "/"%char scan_dir_name = false ->
  under_scan_dir scan_dir_name file_dir ->
  first_segment (same_dir_key file_dir dep_name) = scan_dir_name.
Proof.
  intros Hname [->|[rel ->]]; unfold same_dir_key.
  - now apply first_segment_append.
  - rewrite append_assoc. now apply first_segment_append.
Qed.

Lemma removelast_cons2 {A} (x y : A) l :
  removelast (x :: y :: l) = x :: removelast (y :: l).
Proof. reflexivity. Qed.

Lemma join_cons2 sep x y l :
  join sep (x :: y :: l) = x ++ sep ++ join sep (y :: l).
Proof. reflexivity. Qed.

Lemma sibling_key_first_segment scan_dir_name file_dir dep_name key :
  contains "/"%char scan_dir_name = false ->
  under_scan_dir scan_dir_name file_dir ->
  sibling_key file_dir dep_name = Some key ->
  first_segment key = scan_dir_name.
Proof.
  intros Hname Hdir. unfold sibling_key; cbv zeta.
  destruct Hdir as [->|[rel ->]].
  - rewrite split_no_sep by assumption. discriminate.
  - change (scan_dir_name ++ "/" ++ rel) with (scan_dir_name ++ String "/" rel).
    rewrite split_append_sep by assumption.
    pose proof (@split_by_not_nil (Ascii.eqb "/"%char) rel) as Hrel.
    fold (split "/"%char rel) in Hrel.
    destruct (split "/"%char rel) as [|seg segs]; [congruence|].
    replace (1 <? List.length (scan_dir_name :: seg :: segs))%nat
      with true by reflexivity.
    rewrite removelast_cons2.
    generalize (removelast (seg :: segs)); intros init.
    destruct init as [|y ys].
    + intros H.
      replace key with (scan_dir_name ++ "/" ++ dep_name)
        by (now injection H).
      now apply first_segment_append.
    + rewrite join_cons2, append_assoc. intros H.
      replace key
        with (scan_dir_name ++ "/" ++ (join "/" (y :: ys) ++ "/" ++ dep_name))
        by (now injection H).
      now apply first_segment_append.
Qed.

(** ** Claims about the directory handed to the resolver *)

(** C9: the directory the graph builder hands to the resolver is the file's
    install path, which begins with the scan directory's name.  When no
    discovered key has that name as its first segment, neither the
    same-directory key nor the sibling-directory key is in the file map, for
    any name, and a bare name resolves as the root-level lookup followed by
    the last-resort search alone would resolve it. *)
Theorem install_path_disables_directory_rules (directory : Directory) :
  let files := find_hoon_files directory in
  let scan_dir_name := dir_name directory in
  contains "/"%char scan_dir_name = false ->
  (forall k, In k (Dict.keys files) -> first_segment k <> scan_dir_name) ->
  forall full_key file_path file_dir filename,
    Dict.get full_key files = Some (file_path, file_dir, filename) ->
    Dict.get full_key (fst (build_dependency_graph files directory))
    = Some (fst (for_each (fst (get_dependencies file_path)) []
                   (resolve_raw_dep scan_dir_name full_key file_dir files)))
    /\ startswith file_dir scan_dir_name = true
    /\ forall dep_name,
         Dict.mem (same_dir_key file_dir dep_name) files = false
         /\ (forall key, sibling_key file_dir dep_name = Some key ->
               Dict.mem key files = false)
         /\ resolve_name dep_name file_dir files
            = root_or_search dep_name file_dir files
         /\ (contains "/"%char dep_name = false ->
             resolve_dependency dep_name file_dir files
             = root_or_search dep_name file_dir files).
Proof.
  intros files scan_dir_name Hname Hkeys full_key file_path file_dir filename Hget.
  pose proof (find_hoon_files_install_path _ _ Hget) as Hdir.
  fold scan_dir_name in Hdir.
  split.
  { rewrite build_dependency_graph_nodes by apply find_hoon_files_NoDup.
    fold files. now rewrite (get_map_items _ _ _ Hget). }
  split.
  { destruct Hdir as [->|[rel ->]];
      [apply startswith_refl | apply startswith_append]. }
  intros dep_name.
  assert (Hsame : Dict.mem (same_dir_key file_dir dep_name) files = false).
  { apply mem_false_not_In. intros Hin. apply (Hkeys _ Hin).
    now apply same_dir_key_first_segment. }
  assert (Hsib : forall key, sibling_key file_dir dep_name = Some key ->
                   Dict.mem key files = false).
  { intros key Hkey. apply mem_false_not_In. intros Hin. apply (Hkeys _ Hin).
    eapply sibling_key_first_segment; eassumption. }
  assert (Hres : resolve_name dep_name file_dir files
                 = root_or_search dep_name file_dir files).
  { unfold resolve_name, root_or_search. rewrite Hsame, andb_false_r.
    destruct (Dict.mem dep_name files); [reflexivity|].
    destruct (truthy file_dir); [|reflexivity].
    destruct (sibling_key file_dir dep_name) as [key|] eqn:E; [|reflexivity].
    now rewrite (Hsib key). }
  repeat split; try assumption.
  intros Hbare. unfold resolve_dependency. now rewrite Hbare.
Qed.

(** ** Import extraction: how one line is treated *)

Lemma scan_lines_Line raw rest deps :
  scan_lines (Line raw rest) deps
  = if negb (truthy (strip raw)) then scan_lines rest deps
    else if negb (startswith (strip raw) "/" || startswith (strip raw) "::")
    then (deps, None)
    else if startswith (strip raw) "::" then scan_lines rest deps
    else
      match split_ws (strip raw) with
      | [] => scan_lines rest deps
      | prefix :: args =>
          if elem prefix ["/+"; "/-"; "/#"] then
            scan_lines rest
              (fold_left add_specifier (split ","%char (join " " args)) deps)
          else if prefix =? "/=" then
            scan_lines rest (add_path_import deps (prefix :: args))
          else scan_lines rest deps
      end.
Proof. reflexivity. Qed.

Lemma scan_blank raw rest deps :
  is_blank raw = true -> scan_lines (Line raw rest) deps = scan_lines rest deps.
Proof.
  unfold is_blank. intros H. now rewrite scan_lines_Line, H.
Qed.

Lemma scan_comment raw rest deps :
  is_comment raw = true -> scan_lines (Line raw rest) deps = scan_lines rest deps.
Proof.
  unfold is_comment. intros H. rewrite scan_lines_Line, H, orb_true_r.
  now destruct (negb (truthy (strip raw))).
Qed.

Lemma scan_ends_header raw rest deps :
  ends_header raw = true -> scan_lines (Line raw rest) deps = (deps, None).
Proof.
  unfold ends_header. intros H. apply andb_true_iff in H. destruct H as [H1 H2].
  now rewrite scan_lines_Line, H1, H2.
Qed.

(** A line starting with a slash cannot start with two colons. *)
Lemma slash_not_comment line :
  startswith line "/" = true -> startswith line "::" = false.
Proof.
  destruct line as [|c t]; cbn [startswith]; [discriminate|].
  rewrite andb_true_r. intros H. apply Ascii.eqb_eq in H. now subst c.
Qed.

Lemma slash_truthy line : startswith line "/" = true -> truthy line = true.
Proof.
  destruct line; [discriminate | reflexivity].
Qed.

(** The equation of the loop for a line that starts with a slash *)
Lemma scan_slash raw rest deps :
  startswith (strip raw) "/" = true ->
  scan_lines (Line raw rest) deps
  = match split_ws (strip raw) with
    | [] => scan_lines rest deps
    | prefix :: args =>
        if elem prefix ["/+"; "/-"; "/#"] then
          scan_lines rest
            (fold_left add_specifier (split ","%char (join " " args)) deps)
        else if prefix =? "/=" then
          scan_lines rest (add_path_import deps (prefix :: args))
        else scan_lines rest deps
    end.
Proof.
  intros H.
  rewrite scan_lines_Line, (slash_truthy _ H), (slash_not_comment _ H), H.
  reflexivity.
Qed.

Lemma elem_import_prefixes prefix :
  elem prefix import_prefixes
  = elem prefix ["/+"; "/-"; "/#"] || (prefix =? "/=").
Proof.
  unfold import_prefixes, elem. simpl. now rewrite !orb_false_r, !orb_assoc.
Qed.

(** What follows a line matters only through the scan of what follows. *)
Lemma scan_lines_tail raw t1 t2 :
  (forall deps, scan_lines t1 deps = scan_lines t2 deps) ->
  forall deps, scan_lines (Line raw t1) deps = scan_lines (Line raw t2) deps.
Proof.
  intros H deps. rewrite !scan_lines_Line.
  destruct (negb (truthy (strip raw))); [apply H|].
  destruct (negb (startswith (strip raw) "/" || startswith (strip raw) "::"));
    [reflexivity|].
  destruct (startswith (strip raw) "::"); [apply H|].
  destruct (split_ws (strip raw)) as [|prefix args]; [apply H|].
  destruct (elem prefix ["/+"; "/-"; "/#"]); [apply H|].
  destruct (prefix =? "/="); apply H.
Qed.

(** A read failure changes nothing in the list of tokens collected from the
    lines delivered before it. *)
Lemma scan_lines_raise ls e :
  forall deps,
    let done := scan_lines (lines_then ls Eof) deps in
    scan_lines (lines_then ls (Raise e)) deps = (fst done, None)
    \/ scan_lines (lines_then ls (Raise e)) deps = (fst done, Some e).
Proof.
  induction ls as [|raw ls IH]; intros deps; cbv zeta.
  - right; reflexivity.
  - change (lines_then (raw :: ls) (Raise e))
      with (Line raw (lines_then ls (Raise e))).
    change (lines_then (raw :: ls) Eof) with (Line raw (lines_then ls Eof)).
    rewrite !scan_lines_Line.
    destruct (negb (truthy (strip raw))); [apply IH|].
    destruct (negb (startswith (strip raw) "/" || startswith (strip raw) "::"));
      [left; reflexivity|].
    destruct (startswith (strip raw) "::"); [apply IH|].
    destruct (split_ws (strip raw)) as [|prefix args]; [apply IH|].
    destruct (elem prefix ["/+"; "/-"; "/#"]); [apply IH|].
    destruct (prefix =? "/="); apply IH.
Qed.

(** When no line read before the failure ends the header, the failure is
    reached. *)
Lemma scan_lines_reaches_raise ls e :
  Forall (fun l => ends_header l = false) ls ->
  forall deps, snd (scan_lines (lines_then ls (Raise e)) deps) = Some e.
Proof.
  induction 1 as [|raw ls Hraw Hls IH]; intros deps; [reflexivity|].
  change (lines_then (raw :: ls) (Raise e))
    with (Line raw (lines_then ls (Raise e))).
  rewrite scan_lines_Line. unfold ends_header in Hraw.
  destruct (truthy (strip raw)); simpl negb; cbv iota; [|apply IH].
  simpl in Hraw. rewrite Hraw.
  destruct (startswith (strip raw) "::"); [apply IH|].
  destruct (split_ws (strip raw)) as [|prefix args]; [apply IH|].
  destruct (elem prefix ["/+"; "/-"; "/#"]); [apply IH|].
  destruct (prefix =? "/="); apply IH.
Qed.

Lemma scan_header_only pre :
  Forall (fun l => is_blank l || is_comment l = true) pre ->
  forall tail deps,
    scan_lines (lines_then pre tail) deps = scan_lines tail deps.
Proof.
  induction 1 as [|raw pre Hraw Hpre IH]; intros tail deps; [reflexivity|].
  change (lines_then (raw :: pre) tail) with (Line raw (lines_then pre tail)).
  apply orb_true_iff in Hraw. destruct Hraw as [Hb|Hc].
  - rewrite scan_blank by assumption. apply IH.
  - rewrite scan_comment by assumption. apply IH.
Qed.

(** ** Claims about import extraction *)

(** C10: a line that starts with the slash but whose first token is none of
    the import prefixes is passed over: the scan goes on with the next line
    and the tokens collected so far, so that the file yields the tokens it
    would yield without that line. *)
Theorem unrecognized_slash_line_is_skipped raw rest :
  startswith (strip raw) "/" = true ->
  is_import_directive raw = false ->
  (forall deps, scan_lines (Line raw rest) deps = scan_lines rest deps)
  /\ forall parent name,
       fst (get_dependencies (mkPath parent name (Line raw rest)))
       = fst (get_dependencies (mkPath parent name rest)).
Proof.
  intros Hslash Himport.
  assert (H : forall deps, scan_lines (Line raw rest) deps = scan_lines rest deps).
  { intros deps. rewrite scan_slash by assumption.
    unfold is_import_directive in Himport.
    destruct (split_ws (strip raw)) as [|prefix args]; [reflexivity|].
    rewrite elem_import_prefixes in Himport.
    apply orb_false_iff in Himport. destruct Himport as [-> ->]. reflexivity. }
  split; [exact H|].
  intros parent name. unfold get_dependencies. simpl content. rewrite H.
  destruct (scan_lines rest []) as [deps [e|]]; reflexivity.
Qed.

Lemma unrecognized_slash_line_is_skipped_witness :
  fst (get_dependencies
         (mkPath [] "app.hoon"
            (Line ("/?  310" ++ lf) (Line ("/+  foo" ++ lf) Eof))))
  = ["foo"].
Proof.
  rewrite (proj2 (unrecognized_slash_line_is_skipped
                    ("/?  310" ++ lf) (Line ("/+  foo" ++ lf) Eof)
                    eq_refl eq_refl)).
  reflexivity.
Defined.

(** C4, as the code has it: the scan of a file ends at the first line that,
    once trimmed, is not empty and starts neither with the slash nor with
    the comment marker; nothing after that line is looked at.  A file whose
    lines before such a line are all blank or comments yields no token and
    no warning. *)
Theorem header_ends_at_first_other_line pre raw rest :
  ends_header raw = true ->
  (forall deps,
     scan_lines (lines_then pre (Line raw rest)) deps
     = scan_lines (lines_then pre Eof) deps)
  /\ (Forall (fun l => is_blank l || is_comment l = true) pre ->
      forall parent name,
        get_dependencies (mkPath parent name (lines_then pre (Line raw rest)))
        = ([], [])).
Proof.
  intros Hend. split.
  - induction pre as [|l pre IH]; intros deps.
    + simpl lines_then. now rewrite scan_ends_header.
    + change (lines_then (l :: pre) (Line raw rest))
        with (Line l (lines_then pre (Line raw rest))).
      change (lines_then (l :: pre) Eof) with (Line l (lines_then pre Eof)).
      now apply scan_lines_tail.
  - intros Hpre parent name. unfold get_dependencies. simpl content.
    rewrite scan_header_only by assumption.
    now rewrite scan_ends_header.
Qed.

Lemma header_ends_at_first_other_line_witness :
  get_dependencies
    (mkPath [] "app.hoon"
       (lines_then [":: a comment" ++ lf; lf]
          (Line ("|%" ++ lf) (Line ("/+  foo" ++ lf) Eof))))
  = ([], []).
Proof.
  apply (proj2 (header_ends_at_first_other_line
                  [":: a comment" ++ lf; lf] ("|%" ++ lf)
                  (Line ("/+  foo" ++ lf) Eof) eq_refl)).
  repeat constructor.
Defined.

(** C4, as stated, fails: the first line of this file is neither blank, nor
    a comment, nor an import directive, and the import after it is still
    extracted. *)
Lemma header_not_ended_by_unrecognized_slash_line :
  let raw := "/?  310" ++ lf in
  is_blank raw = false /\ is_comment raw = false
  /\ is_import_directive raw = false
  /\ fst (get_dependencies
            (mkPath [] "app.hoon" (Line raw (Line ("/+  foo" ++ lf) Eof))))
     = ["foo"]
  /\ fst (get_dependencies
            (mkPath [] "app.hoon" (Line raw (Line ("/+  foo" ++ lf) Eof))))
     <> [].
Proof.
  cbv zeta. repeat split; try reflexivity. discriminate.
Qed.

(** C5, as the code has it: the extractor always returns.  A failure met
    before any line is read gives no token and one warning.  A failure met
    after some lines gives the tokens of the lines read before it; the
    warning is printed when the scan reaches the failure, which it does
    when none of those lines ends the header. *)
Theorem read_failure_keeps_tokens_read_before parent name :
  (forall e,
     get_dependencies (mkPath parent name (Raise e))
     = ([], [CouldNotRead (mkPath parent name (Raise e)) e]))
  /\ forall ls e,
       let file_path := mkPath parent name (lines_then ls (Raise e)) in
       fst (get_dependencies file_path)
       = fst (get_dependencies (mkPath parent name (lines_then ls Eof)))
       /\ (snd (get_dependencies file_path) = []
           \/ snd (get_dependencies file_path) = [CouldNotRead file_path e])
       /\ (Forall (fun l => ends_header l = false) ls ->
           snd (get_dependencies file_path) = [CouldNotRead file_path e]).
Proof.
  split; [reflexivity|].
  intros ls e file_path. unfold get_dependencies. simpl content.
  pose proof (scan_lines_reaches_raise (ls := ls) e) as Hreach.
  destruct (scan_lines_raise ls e []) as [Hscan|Hscan]; cbv zeta in Hscan;
    rewrite Hscan;
    destruct (scan_lines (lines_then ls Eof) []) as [done [e'|]];
    (split; [reflexivity|]); (split; [auto|]);
    intros Hls; specialize (Hreach Hls []); rewrite Hscan in Hreach;
    first [ discriminate Hreach | reflexivity ].
Qed.

(** C5, as stated, fails.  The file below is one import line, 127 comment
    lines of 64 bytes each (8136 bytes, the whole lines among the first
    8192 bytes read as one block), and then bytes that are not valid UTF-8:
    the lines of the first block are delivered, the next read raises, and
    the token of the import line is returned with the warning. *)
Lemma partial_read_still_contributes_tokens :
  let file_path :=
    mkPath [] "app.hoon"
      (lines_then (("/+  foo" ++ lf) :: repeat long_comment_line 127)
         (Raise "invalid start byte")) in
  String.length ("/+  foo" ++ lf) = 8
  /\ String.length long_comment_line = 64
  /\ get_dependencies file_path
     = (["foo"], [CouldNotRead file_path "invalid start byte"])
  /\ fst (get_dependencies file_path) <> [].
Proof.
  cbv zeta. repeat split; try reflexivity. discriminate.
Qed.

(** ** Strings: pieces, last pieces and trimmed heads *)

Lemma split_app_sep c (a b : string) :
  split c (a ++ String c b) = (split c a ++ split c b)%list.
Proof.
  unfold split. induction a as [|x a IH]; cbn [append split_by].
  - now rewrite Ascii.eqb_refl.
  - rewrite IH. destruct (Ascii.eqb c x); [reflexivity|].
    pose proof (@split_by_not_nil (Ascii.eqb c) a) as Hne.
    destruct (split_by (Ascii.eqb c) a); [congruence | reflexivity].
Qed.

Lemma last_app_nonempty {A} (l1 l2 : list A) d :
  l2 <> [] -> last (l1 ++ l2) d = last l2 d.
Proof.
  intros Hne. induction l1 as [|x l1 IH]; [reflexivity|].
  cbn [app]. destruct (l1 ++ l2)%list eqn:E.
  - apply app_eq_nil in E. tauto.
  - rewrite <- IH. reflexivity.
Qed.

Lemma last_item_split c (a b : string) :
  contains c b = false -> last_item (split c (a ++ String c b)) = b.
Proof.
  intros Hb. unfold last_item. rewrite split_app_sep.
  rewrite last_app_nonempty by apply split_by_not_nil.
  now rewrite split_no_sep.
Qed.

Lemma contains_app_sep c (a b : string) : contains c (a ++ String c b) = true.
Proof.
  induction a as [|x a IH]; cbn [append contains].
  - now rewrite Ascii.eqb_refl.
  - rewrite IH. apply orb_true_r.
Qed.

Lemma lstrip_head s :
  match lstrip s with
  | EmptyString => True
  | String c _ => isspace c = false
  end.
Proof.
  induction s as [|c s IH]; cbn [lstrip]; [exact I|].
  destruct (isspace c) eqn:E; [exact IH | exact E].
Qed.

Lemma rstrip_head c s :
  rstrip (String c s) = EmptyString \/ exists t, rstrip (String c s) = String c t.
Proof.
  cbn [rstrip]. destruct (rstrip s).
  - destruct (isspace c); [now left | right; eauto].
  - right; eauto.
Qed.

Lemma strip_head s :
  match strip s with
  | EmptyString => True
  | String c _ => isspace c = false
  end.
Proof.
  unfold strip. pose proof (lstrip_head s) as H.
  destruct (lstrip s) as [|c t]; [exact I|].
  destruct (rstrip_head c t) as [-> | [t' ->]]; [exact I | exact H].
Qed.

(** The first token of a trimmed line starts where the line starts. *)
Lemma first_token_head raw prefix args :
  split_ws (strip raw) = prefix :: args ->
  exists c t x, strip raw = String c t /\ prefix = String c x.
Proof.
  pose proof (strip_head raw) as H.
  destruct (strip raw) as [|c t]; [discriminate|].
  unfold split_ws. cbn [split_by]. rewrite H.
  pose proof (@split_by_not_nil isspace t) as Hne.
  destruct (split_by isspace t) as [|x xs]; [congruence|].
  cbn [filter truthy]. intros E. inversion E. eauto.
Qed.

Lemma named_prefix_slash raw prefix args :
  split_ws (strip raw) = prefix :: args ->
  elem prefix ["/+"; "/-"; "/#"] = true ->
  startswith (strip raw) "/" = true.
Proof.
  intros Hsplit Helem.
  destruct (first_token_head _ Hsplit) as [c [t [x [-> ->]]]].
  unfold elem in Helem. cbn [existsb] in Helem.
  rewrite orb_false_r in Helem.
  cbn [startswith]. rewrite andb_true_r.
  repeat (apply orb_true_iff in Helem; destruct Helem as [Helem|Helem]);
    apply String.eqb_eq in Helem; inversion Helem; reflexivity.
Qed.

(** ** Claims about specifiers *)

(** C7: a [/+], [/-] or [/#] line passes each piece of its comma-separated
    list to [add_specifier], which trims the piece and removes a leading
    star; the piece is then dropped when nothing is left, kept as it is when
    it has no equal sign, and replaced by the trimmed text after its last
    equal sign otherwise (dropped when that text is empty). *)
Theorem named_import_specifier_tokens :
  (forall raw rest deps prefix args,
     split_ws (strip raw) = prefix :: args ->
     elem prefix ["/+"; "/-"; "/#"] = true ->
     scan_lines (Line raw rest) deps
     = scan_lines rest
         (fold_left add_specifier (split ","%char (join " " args)) deps))
  /\ (forall deps d,
        let body := unstarred (strip d) in
        (body = EmptyString -> add_specifier deps d = deps)
        /\ (contains "="%char body = false -> body <> EmptyString ->
            add_specifier deps d = (deps ++ [body])%list)
        /\ (forall source alias,
              body = source ++ "=" ++ alias ->
              contains "="%char alias = false ->
              add_specifier deps d
              = if truthy (strip alias) then (deps ++ [strip alias])%list
                else deps))
  /\ (forall r, unstarred ("*" ++ r) = r)
  /\ (forall d, startswith d "*" = false -> unstarred d = d)
  /\ add_specifier [] "*foo=bar" = ["bar"].
Proof.
  split; [|split; [|split; [|split]]].
  - intros raw rest deps prefix args Hsplit Helem.
    rewrite scan_slash by (eapply named_prefix_slash; eassumption).
    now rewrite Hsplit, Helem.
  - intros deps d body. unfold add_specifier. fold body.
    split; [|split].
    + intros ->. reflexivity.
    + intros Hno Hne. rewrite Hno. destruct body; [congruence | reflexivity].
    + intros source alias Hbody Halias.
      rewrite Hbody. change (source ++ "=" ++ alias) with (source ++ String "=" alias).
      rewrite contains_app_sep, last_item_split by assumption. reflexivity.
  - intros r. reflexivity.
  - intros d Hd. unfold unstarred. now rewrite Hd.
  - reflexivity.
Qed.

Lemma named_import_specifier_tokens_witness :
  scan_lines (Line ("/+  foo, *bar=baz ,, *qux" ++ lf) Eof) []
  = (["foo"; "baz"; "qux"], None)
  /\ add_specifier ["foo"] " *bar=baz " = ["foo"; "baz"]
  /\ add_specifier ["foo"] " qux " = ["foo"; "qux"]
  /\ add_specifier ["foo"] "   " = ["foo"].
Proof.
  pose proof named_import_specifier_tokens as [Hline [Hspec _]].
  split; [|split; [|split]].
  - rewrite (Hline ("/+  foo, *bar=baz ,, *qux" ++ lf) Eof []
               "/+" ["foo,"; "*bar=baz"; ",,"; "*qux"] eq_refl eq_refl).
    reflexivity.
  - exact (proj2 (proj2 (Hspec ["foo"] " *bar=baz ")) "bar" "baz" eq_refl eq_refl).
  - apply (proj1 (proj2 (Hspec ["foo"] " qux "))); [reflexivity | discriminate].
  - exact (proj1 (Hspec ["foo"] "   ") eq_refl).
Defined.

(** ** Claims about the resolver *)

(** The resolver itself tries the same-directory key before the root-level
    key whenever it is handed a non-empty directory. *)
Lemma resolve_name_same_directory_first dep_name dir (files : Files) :
  truthy dir = true ->
  Dict.mem (same_dir_key dir dep_name) files = true ->
  resolve_name dep_name dir files = ret (Some (same_dir_key dir dep_name)).
Proof.
  intros Hdir Hmem. unfold resolve_name. now rewrite Hdir, Hmem.
Qed.

(** C1, on the tree [hoon/a/x], [hoon/a/y], [hoon/y]: handed the directory
    [a] of the importing key, the resolver returns [a/y]; the graph builder
    hands it the install path [hoon/a], the same-directory key it tries is
    [hoon/a/y], and the import of [y] in [a/x] ends at the root-level key
    [y]. *)
Theorem same_directory_import_lands_on_root_key :
  let files := find_hoon_files same_dir_tree in
  let graph := fst (build_dependency_graph files same_dir_tree) in
  Dict.keys files = ["a/x"; "a/y"; "y"]
  /\ (exists file_path filename,
        Dict.get "a/x" files = Some (file_path, "hoon/a", filename)
        /\ fst (get_dependencies file_path) = ["y"])
  /\ fst (resolve_dependency "y" "a" files) = Some "a/y"
  /\ same_dir_key "hoon/a" "y" = "hoon/a/y"
  /\ fst (resolve_dependency "y" "hoon/a" files) = Some "y"
  /\ Dict.get "a/x" graph = Some ["y"].
Proof.
  cbv zeta. repeat split; try reflexivity.
  do 2 eexists. split; reflexivity.
Qed.

Lemma filter_first {A} (p : A -> bool) (l : list A) x r :
  filter p l = x :: r ->
  exists before after,
    l = (before ++ x :: after)%list /\ Forall (fun y => p y = false) before.
Proof.
  induction l as [|a l IH]; cbn [filter]; [discriminate|].
  destruct (p a) eqn:E; intros H.
  - inversion H; subst. exists [], l. split; [reflexivity | constructor].
  - destruct (IH H) as [before [after [-> Hb]]].
    exists (a :: before), after. split; [reflexivity | now constructor].
Qed.

(** C3, as the code has it: when the last-resort search finds several keys,
    the resolver prints one warning that lists them all, in the order of
    the file map, and returns the first of them, which is the first key of
    the file map that is the name or ends with a slash and the name. *)
Theorem ambiguous_search_takes_first_key_of_map
  dep_name dir (files : Files) m1 m2 rest :
  suffix_matches dep_name files = m1 :: m2 :: rest ->
  search_all dep_name dir files
  = (Some m1, [Ambiguous dep_name dir (m1 :: m2 :: rest)])
  /\ (forall k, In k (m1 :: m2 :: rest) <->
        In k (Dict.keys files)
        /\ (endswith k ("/" ++ dep_name) = true \/ k = dep_name))
  /\ (exists before after,
        Dict.keys files = (before ++ m1 :: after)%list
        /\ Forall (fun k =>
             endswith k ("/" ++ dep_name) || (k =? dep_name) = false) before)
  /\ ((truthy dir && Dict.mem (same_dir_key dir dep_name) files = false) ->
      Dict.mem dep_name files = false ->
      (forall key, truthy dir = true -> sibling_key dir dep_name = Some key ->
         Dict.mem key files = false) ->
      resolve_name dep_name dir files
      = (Some m1, [Ambiguous dep_name dir (m1 :: m2 :: rest)])).
Proof.
  intros Hm.
  assert (Hsearch : search_all dep_name dir files
                    = (Some m1, [Ambiguous dep_name dir (m1 :: m2 :: rest)])).
  { unfold search_all. rewrite Hm. reflexivity. }
  split; [exact Hsearch|]. split; [|split].
  - intros k. rewrite <- Hm. unfold suffix_matches.
    rewrite filter_In, orb_true_iff, String.eqb_eq. reflexivity.
  - unfold suffix_matches in Hm. apply filter_first in Hm. exact Hm.
  - intros Hsame Hroot Hsib. unfold resolve_name. rewrite Hsame, Hroot.
    destruct (truthy dir); [|exact Hsearch].
    destruct (sibling_key dir dep_name) as [key|] eqn:E; [|exact Hsearch].
    now rewrite (Hsib key eq_refl eq_refl).
Qed.

Lemma ambiguous_search_takes_first_key_of_map_witness :
  resolve_name "dep" "hoon" (find_hoon_files ambiguous_tree)
  = (Some "pkg/dep", [Ambiguous "dep" "hoon" ["pkg/dep"; "other/dep"]]).
Proof.
  apply (ambiguous_search_takes_first_key_of_map "dep" "hoon"
           (find_hoon_files ambiguous_tree) (rest := []) eq_refl).
  - reflexivity.
  - reflexivity.
  - intros key _ H. discriminate H.
Defined.

(** C3, as stated, fails: the same tree enumerated in two orders gives two
    different targets for the import of [dep] in [app]. *)
Lemma ambiguous_choice_follows_enumeration_order :
  dir_name ambiguous_tree = dir_name ambiguous_tree_reordered
  /\ Permutation (rglob_hoon ambiguous_tree)
                 (rglob_hoon ambiguous_tree_reordered)
  /\ Dict.get "app"
       (fst (build_dependency_graph (find_hoon_files ambiguous_tree)
               ambiguous_tree))
     = Some ["pkg/dep"]
  /\ Dict.get "app"
       (fst (build_dependency_graph (find_hoon_files ambiguous_tree_reordered)
               ambiguous_tree_reordered))
     = Some ["other/dep"].
Proof.
  repeat split; try reflexivity. apply perm_swap.
Qed.

(** ** Claims about full-path tokens *)

Lemma split_pieces_without_sep c s :
  Forall (fun x => contains c x = false) (split c s).
Proof.
  unfold split. induction s as [|a s IH]; cbn [split_by].
  - repeat constructor.
  - destruct (Ascii.eqb c a) eqn:E.
    + constructor; [reflexivity | exact IH].
    + destruct (split_by (Ascii.eqb c) s) as [|x xs]; cbn [contains].
      * constructor; [|constructor]. cbn [contains].
        now rewrite Ascii.eqb_sym, E.
      * inversion IH; subst. constructor; [|assumption].
        cbn [contains]. now rewrite Ascii.eqb_sym, E.
Qed.

Lemma basename_without_sep c s :
  contains c (last_item (split c s)) = false.
Proof.
  unfold last_item.
  pose proof (split_pieces_without_sep c s) as H.
  pose proof (@split_by_not_nil (Ascii.eqb c) s) as Hne.
  fold (split c s) in Hne.
  induction (split c s) as [|x l IH]; [congruence|].
  inversion H; subst. destruct l as [|y l]; [assumption|].
  apply IH; [assumption | discriminate].
Qed.

(** The only scan directory whose name is stripped from [b/c] is [b]. *)
Lemma strip_scan_dir_b_c scan_dir_name :
  strip_scan_dir scan_dir_name "b/c"
  = if scan_dir_name =? "b" then "c" else "b/c".
Proof.
  unfold strip_scan_dir.
  destruct scan_dir_name as [|c1 [|c2 [|c3 s]]]; cbn [append startswith].
  - reflexivity.
  - destruct (String.eqb_spec (String c1 "") "b") as [E|E].
    + inversion E; subst. reflexivity.
    + destruct (Ascii.eqb_spec c1 "b") as [->|Hc]; [congruence | reflexivity].
  - cbn [String.eqb]. rewrite andb_false_r.
    destruct (Ascii.eqb c1 "b"); reflexivity.
  - cbn [String.eqb]. destruct s; rewrite ?andb_false_r;
      destruct (Ascii.eqb c1 "b"); reflexivity.
Qed.

(** C6, as the code has it: a token that still contains a slash after the
    scan directory's name has been stripped is returned as it is when it is
    a key of the file map, and is otherwise resolved as its last segment,
    which contains no slash; a token left without a slash is resolved as a
    bare name.  A [/=] line naming [/b/c] in a file of the scan root
    resolves to [b/c] when that key exists, whatever the scan directory is
    called. *)
Theorem stripped_path_token_tried_as_key_first
  scan_dir_name token dir (files : Files) :
  let dep_name := strip_scan_dir scan_dir_name token in
  (contains "/"%char dep_name = true ->
   (Dict.mem dep_name files = true ->
    resolve_dependency dep_name dir files = (Some dep_name, []))
   /\ (Dict.mem dep_name files = false ->
       let basename := last_item (split "/"%char dep_name) in
       contains "/"%char basename = false
       /\ resolve_dependency dep_name dir files
          = resolve_name basename dir files))
  /\ (contains "/"%char dep_name = false ->
      resolve_dependency dep_name dir files
      = resolve_name dep_name dir files)
  /\ (Dict.mem "b/c" files = true ->
      forall parent name filename full_key,
        let importer := mkPath parent name (Line ("/=  c  /b/c" ++ lf) Eof) in
        fst (get_dependencies importer) = ["b/c"]
        /\ adjacency scan_dir_name files
             (full_key, (importer, scan_dir_name, filename))
           = ["b/c"]).
Proof.
  intros dep_name. split; [|split].
  - intros Hsep. unfold resolve_dependency. rewrite Hsep. split.
    + intros ->. reflexivity.
    + intros ->. split; [apply basename_without_sep | reflexivity].
  - intros Hbare. unfold resolve_dependency. now rewrite Hbare.
  - intros Hmem parent name filename full_key importer.
    split; [reflexivity|].
    unfold adjacency.
    change (fst (get_dependencies importer)) with ["b/c"].
    cbn [for_each]. rewrite fst_bind, fst_resolve_raw_dep.
    rewrite strip_scan_dir_b_c.
    destruct (String.eqb_spec scan_dir_name "b") as [->|Hne].
    + change (resolve_dependency "c" "b" files)
        with (resolve_name "c" "b" files).
      rewrite resolve_name_same_directory_first by (reflexivity || exact Hmem).
      reflexivity.
    + unfold resolve_dependency. cbn [contains]. simpl orb. cbv iota.
      rewrite Hmem. reflexivity.
Qed.

Lemma stripped_path_token_tried_as_key_first_witness :
  resolve_dependency "b/c" "hoon"
    [("b/c", (mkPath ["b"] "c.hoon" Eof, "hoon/b", "c.hoon"))]
  = (Some "b/c", []).
Proof.
  apply (proj1
           (proj1 (stripped_path_token_tried_as_key_first "hoon" "hoon/b/c" "hoon"
                     [("b/c", (mkPath ["b"] "c.hoon" Eof, "hoon/b", "c.hoon"))])
              eq_refl)).
  reflexivity.
Defined.

(** C6, as stated, fails: the token [a/y] contains a slash; with the scan
    directory's name [a] stripped it is [y], which is a key of the file map,
    and the import resolves to the same-directory key [a/y] instead. *)
Lemma stripped_token_not_tried_as_key_first :
  let files := find_hoon_files nested_tree in
  Dict.keys files = ["x"; "a/y"; "y"]
  /\ (exists file_path filename,
        Dict.get "x" files = Some (file_path, "a", filename)
        /\ fst (get_dependencies file_path) = ["a/y"])
  /\ contains "/"%char "a/y" = true
  /\ strip_scan_dir (dir_name nested_tree) "a/y" = "y"
  /\ Dict.mem "y" files = true
  /\ fst (resolve_dependency "y" "a" files) = Some "a/y"
  /\ Dict.get "x" (fst (build_dependency_graph files nested_tree))
     = Some ["a/y"]
  /\ fst (resolve_dependency "y" "a" files) <> Some "y".
Proof.
  cbv zeta. repeat split; try reflexivity; try discriminate.
  do 2 eexists. split; reflexivity.
Qed.

(** ** The manifest *)

Lemma insert_item_In {V} (x y : string * V) l :
  In y (insert_item x l) <-> y = x \/ In y l.
Proof.
  induction l as [|z l IH]; cbn [insert_item].
  - simpl. intuition.
  - destruct (fst x <=? fst z); simpl.
    + intuition.
    + rewrite IH. intuition.
Qed.

Lemma sorted_items_In {V} (y : string * V) l :
  In y (sorted_items l) <-> In y l.
Proof.
  induction l as [|x l IH]; cbn [sorted_items]; [reflexivity|].
  rewrite insert_item_In, IH. simpl. intuition.
Qed.

Lemma fold_add_package workspace_name graph items :
  forall lines aliases,
    fold_left (add_package workspace_name graph) items (lines, aliases)
    = ((lines ++ flat_map (package_lines workspace_name graph) items)%list,
       (aliases ++ flat_map (package_aliases workspace_name) items)%list).
Proof.
  induction items as [|item items IH]; intros lines aliases; cbn [fold_left flat_map].
  - now rewrite !app_nil_r.
  - unfold add_package at 2. rewrite IH, <- !app_assoc. reflexivity.
Qed.

(** The emitted lines are a heading, the blocks of the items in key order,
    and the alias section. *)
Lemma registry_lines_blocks
  workspace_name git_url ref description root_path (files : Files) graph :
  exists heading aliases,
    registry_lines workspace_name git_url ref description root_path files graph
    = (heading
       ++ flat_map (package_lines workspace_name graph)
            (sorted_items (Dict.items files))
       ++ aliases)%list.
Proof.
  unfold registry_lines. rewrite fold_add_package.
  match goal with
  | |- context [fold_left (add_special_alias ?w ?f) ?l ?a] =>
      destruct (fold_left (add_special_alias w f) l a) as [|al als]
  end.
  - eexists. exists []. rewrite app_nil_r. reflexivity.
  - eexists. eexists. rewrite <- app_assoc. reflexivity.
Qed.

Lemma registry_lines_block
  workspace_name git_url ref description root_path (files : Files) graph item :
  In item files ->
  exists before after,
    registry_lines workspace_name git_url ref description root_path files graph
    = (before ++ package_lines workspace_name graph item ++ after)%list.
Proof.
  intros Hin.
  destruct (registry_lines_blocks workspace_name git_url ref description
              root_path files graph) as [heading [aliases ->]].
  unfold Dict.items. apply (sorted_items_In item) in Hin.
  apply in_split in Hin. destruct Hin as [l1 [l2 ->]].
  rewrite flat_map_app. cbn [flat_map].
  exists (heading ++ flat_map (package_lines workspace_name graph) l1)%list.
  exists (flat_map (package_lines workspace_name graph) l2 ++ aliases)%list.
  now rewrite <- !app_assoc.
Qed.

Lemma mem_get {V} (d : Dict.t V) k :
  Dict.mem k d = true -> exists v, Dict.get k d = Some v.
Proof.
  unfold Dict.mem. destruct (Dict.get k d); [eauto | discriminate].
Qed.

(** The list of emitted lines holds one package block for every discovered
    file, and for every key [d] of the adjacency list of a file, [d] is a
    discovered key whose own block, named [workspace/d], is in the same
    list. *)
Theorem manifest_dependencies_have_package_records
  (directory : Directory) workspace_name git_url ref description root_path :
  let files := find_hoon_files directory in
  let graph := fst (build_dependency_graph files directory) in
  let lines :=
    registry_lines workspace_name git_url ref description root_path files graph in
  generate_registry_toml workspace_name git_url ref description root_path
    files graph directory = join lf lines
  /\ (forall k rec,
        Dict.get k files = Some rec ->
        exists before after,
          lines = (before ++ package_lines workspace_name graph (k, rec)
                   ++ after)%list)
  /\ (forall k rec d,
        Dict.get k files = Some rec ->
        In d (graph_get graph k) ->
        exists rec' before after,
          Dict.get d files = Some rec'
          /\ lines = (before ++ package_lines workspace_name graph (d, rec')
                      ++ after)%list
          /\ nth 1 (package_lines workspace_name graph (d, rec')) EmptyString
             = "name = " ++ quoted (qualified workspace_name d)).
Proof.
  intros files graph lines. split; [reflexivity|]. split.
  - intros k rec Hk. apply registry_lines_block. now apply get_Some_In.
  - intros k rec d Hk Hd.
    assert (Hmem : Dict.mem d files = true).
    { apply mem_In. unfold graph_get, graph in Hd.
      rewrite build_dependency_graph_nodes in Hd
        by apply find_hoon_files_NoDup.
      rewrite (get_map_items _ _ _ Hk) in Hd.
      eapply adjacency_sound; eassumption. }
    destruct (mem_get _ _ Hmem) as [rec' Hrec'].
    destruct (registry_lines_block workspace_name git_url ref description
                root_path files graph (d, rec') (get_Some_In _ _ Hrec'))
      as [before [after Hlines]].
    exists rec', before, after. repeat split; try assumption.
    destruct rec' as [[p ip] fn]. reflexivity.
Qed.

(** ** The claims at the sample trees *)

Lemma graph_total_without_dangling_edges_witness :
  Dict.mem "y" (find_hoon_files same_dir_tree) = true.
Proof.
  apply (proj2 (proj2 (proj2
           (graph_total_without_dangling_edges same_dir_tree same_dir_tree)))
           "a/x" ["y"] "y").
  - reflexivity.
  - now left.
Defined.

Lemma install_path_disables_directory_rules_witness :
  startswith "hoon/a" "hoon" = true
  /\ resolve_dependency "y" "hoon/a" (find_hoon_files same_dir_tree)
     = root_or_search "y" "hoon/a" (find_hoon_files same_dir_tree).
Proof.
  assert (Hkeys : forall k,
            In k (Dict.keys (find_hoon_files same_dir_tree)) ->
            first_segment k <> dir_name same_dir_tree).
  { intros k Hk. vm_compute in Hk.
    destruct Hk as [<-|[<-|[<-|[]]]]; vm_compute; discriminate. }
  destruct (@install_path_disables_directory_rules same_dir_tree eq_refl Hkeys
              "a/x" (mkPath ["a"] "x.hoon" (Line ("/+  y" ++ lf) Eof))
              "hoon/a" "x.hoon" eq_refl) as [_ [Hstart Hrules]].
  split; [exact Hstart|].
  exact (proj2 (proj2 (proj2 (Hrules "y"))) eq_refl).
Defined.

Lemma read_failure_keeps_tokens_read_before_witness :
  snd (get_dependencies
         (mkPath [] "app.hoon"
            (lines_then ["/+  foo" ++ lf] (Raise "invalid start byte"))))
  = [CouldNotRead
       (mkPath [] "app.hoon"
          (lines_then ["/+  foo" ++ lf] (Raise "invalid start byte")))
       "invalid start byte"].
Proof.
  apply (proj2 (read_failure_keeps_tokens_read_before [] "app.hoon")
           ["/+  foo" ++ lf] "invalid start byte").
  repeat constructor.
Defined.

Lemma manifest_dependencies_have_package_records_witness :
  let files := find_hoon_files same_dir_tree in
  let graph := fst (build_dependency_graph files same_dir_tree) in
  exists rec' before after,
    Dict.get "y" files = Some rec'
    /\ registry_lines "ws" "url" "rev" "" "hoon" files graph
       = (before ++ package_lines "ws" graph ("y", rec') ++ after)%list
    /\ nth 1 (package_lines "ws" graph ("y", rec')) EmptyString
       = "name = " ++ quoted (qualified "ws" "y").
Proof.
  cbv zeta.
  apply (proj2 (proj2
           (manifest_dependencies_have_package_records same_dir_tree
              "ws" "url" "rev" "" "hoon"))
           "a/x" (mkPath ["a"] "x.hoon" (Line ("/+  y" ++ lf) Eof),
                  "hoon/a", "x.hoon")).
  - reflexivity.
  - now left.
Defined.


(** * Further properties *)

(** ** Import extraction: the collected list *)

Lemma add_specifier_acc deps d :
  add_specifier deps d = (deps ++ add_specifier [] d)%list.
Proof.
  unfold add_specifier.
  match goal with |- context [truthy ?x] => destruct (truthy x) end.
  - reflexivity.
  - now rewrite app_nil_r.
Qed.

Lemma fold_add_specifier_acc l :
  forall deps,
    fold_left add_specifier l deps
    = (deps ++ fold_left add_specifier l [])%list.
Proof.
  induction l as [|d l IH]; intros deps; cbn [fold_left].
  - now rewrite app_nil_r.
  - rewrite IH, (IH (add_specifier [] d)), (add_specifier_acc deps d).
    now rewrite app_assoc.
Qed.

Lemma add_path_import_acc deps parts :
  add_path_import deps parts = (deps ++ add_path_import [] parts)%list.
Proof.
  unfold add_path_import.
  destruct (3 <=? List.length parts)%nat; [|now rewrite app_nil_r].
  match goal with |- context [truthy ?x] => destruct (truthy x) end.
  - reflexivity.
  - now rewrite app_nil_r.
Qed.

(** The tokens found are appended to the list the scan starts with. *)
Lemma scan_lines_acc f :
  forall deps,
    scan_lines f deps
    = ((deps ++ fst (scan_lines f []))%list, snd (scan_lines f [])).
Proof.
  induction f as [|e|raw rest IH]; intros deps.
  - cbn. now rewrite app_nil_r.
  - cbn. now rewrite app_nil_r.
  - rewrite !scan_lines_Line.
    destruct (negb (truthy (strip raw))); [apply IH|].
    destruct (negb (startswith (strip raw) "/" || startswith (strip raw) "::")).
    { cbn. now rewrite app_nil_r. }
    destruct (startswith (strip raw) "::"); [apply IH|].
    destruct (split_ws (strip raw)) as [|prefix args]; [apply IH|].
    destruct (elem prefix ["/+"; "/-"; "/#"]).
    { rewrite IH, fold_add_specifier_acc.
      rewrite (IH (fold_left add_specifier _ [])).
      cbn [fst snd]. now rewrite app_assoc. }
    destruct (prefix =? "/=").
    { rewrite IH, add_path_import_acc.
      rewrite (IH (add_path_import [] _)).
      cbn [fst snd]. now rewrite app_assoc. }
    apply IH.
Qed.

Lemma scan_lines_through ls :
  Forall (fun l => ends_header l = false) ls ->
  forall tail deps,
    scan_lines (lines_then ls tail) deps
    = scan_lines tail (fst (scan_lines (lines_then ls Eof) deps)).
Proof.
  induction 1 as [|raw ls Hraw Hls IH]; intros tail deps; [reflexivity|].
  change (lines_then (raw :: ls) tail) with (Line raw (lines_then ls tail)).
  change (lines_then (raw :: ls) Eof) with (Line raw (lines_then ls Eof)).
  rewrite !scan_lines_Line. unfold ends_header in Hraw.
  destruct (truthy (strip raw)); cbn [negb]; [|apply IH].
  cbn [andb] in Hraw. rewrite Hraw.
  destruct (startswith (strip raw) "::"); [apply IH|].
  destruct (split_ws (strip raw)) as [|prefix args]; [apply IH|].
  destruct (elem prefix ["/+"; "/-"; "/#"]); [apply IH|].
  destruct (prefix =? "/="); apply IH.
Qed.

Lemma fst_get_dependencies file_path :
  fst (get_dependencies file_path) = fst (scan_lines (content file_path) []).
Proof.
  unfold get_dependencies.
  destruct (scan_lines (content file_path) []) as [deps [e|]]; reflexivity.
Qed.

Lemma snd_scan_lines_eof ls :
  forall deps, snd (scan_lines (lines_then ls Eof) deps) = None.
Proof.
  induction ls as [|raw ls IH]; intros deps; [reflexivity|].
  change (lines_then (raw :: ls) Eof) with (Line raw (lines_then ls Eof)).
  rewrite scan_lines_Line.
  destruct (negb (truthy (strip raw))); [apply IH|].
  destruct (negb (startswith (strip raw) "/" || startswith (strip raw) "::"));
    [reflexivity|].
  destruct (startswith (strip raw) "::"); [apply IH|].
  destruct (split_ws (strip raw)) as [|prefix args]; [apply IH|].
  destruct (elem prefix ["/+"; "/-"; "/#"]); [apply IH|].
  destruct (prefix =? "/="); apply IH.
Qed.

(** X3: the tokens of a file come in the order of its lines: when no line
    of a first part ends the header, the tokens of the whole file are those
    of the first part followed by those of the rest. *)
Theorem tokens_of_consecutive_header_parts parent name ls tail :
  Forall (fun l => ends_header l = false) ls ->
  fst (get_dependencies (mkPath parent name (lines_then ls tail)))
  = (fst (get_dependencies (mkPath parent name (lines_then ls Eof)))
     ++ fst (get_dependencies (mkPath parent name tail)))%list.
Proof.
  intros Hls. rewrite !fst_get_dependencies. cbn [content].
  rewrite scan_lines_through by assumption.
  now rewrite scan_lines_acc.
Qed.

Lemma tokens_of_consecutive_header_parts_witness :
  fst (get_dependencies
         (mkPath [] "app.hoon"
            (lines_then ["/+  foo" ++ lf; "/?  310" ++ lf]
               (Line ("/-  bar, foo" ++ lf) Eof))))
  = ["foo"; "bar"; "foo"].
Proof.
  rewrite (@tokens_of_consecutive_header_parts [] "app.hoon"
             ["/+  foo" ++ lf; "/?  310" ++ lf]
             (Line ("/-  bar, foo" ++ lf) Eof)).
  - reflexivity.
  - repeat constructor.
Defined.

(** X4: a file that is read to its end gives no warning, whatever its
    lines are. *)
Theorem readable_file_gives_no_warning parent name ls :
  snd (get_dependencies (mkPath parent name (lines_then ls Eof))) = [].
Proof.
  unfold get_dependencies. cbn [content].
  pose proof (snd_scan_lines_eof ls []) as H.
  destruct (scan_lines (lines_then ls Eof) []) as [deps [e|]];
    [discriminate H | reflexivity].
Qed.

(** ** Import extraction: what a token can be *)

Lemma fold_add_specifier_Forall (P : string -> Prop) l :
  (forall deps d, Forall P deps -> Forall P (add_specifier deps d)) ->
  forall deps, Forall P deps -> Forall P (fold_left add_specifier l deps).
Proof.
  intros Hstep. induction l as [|d l IH]; intros deps Hdeps; cbn [fold_left];
    [assumption|]. apply IH. now apply Hstep.
Qed.

Lemma scan_lines_Forall (P : string -> Prop) :
  (forall deps d, Forall P deps -> Forall P (add_specifier deps d)) ->
  (forall deps parts, Forall P deps -> Forall P (add_path_import deps parts)) ->
  forall f deps, Forall P deps -> Forall P (fst (scan_lines f deps)).
Proof.
  intros Hspec Hpath.
  induction f as [|e|raw rest IH]; intros deps Hdeps; try exact Hdeps.
  rewrite scan_lines_Line.
  destruct (negb (truthy (strip raw))); [now apply IH|].
  destruct (negb (startswith (strip raw) "/" || startswith (strip raw) "::"));
    [exact Hdeps|].
  destruct (startswith (strip raw) "::"); [now apply IH|].
  destruct (split_ws (strip raw)) as [|prefix args]; [now apply IH|].
  destruct (elem prefix ["/+"; "/-"; "/#"]).
  { apply IH. now apply fold_add_specifier_Forall. }
  destruct (prefix =? "/="); apply IH; [now apply Hpath | assumption].
Qed.

Lemma add_specifier_truthy deps d :
  Forall (fun t => truthy t = true) deps ->
  Forall (fun t => truthy t = true) (add_specifier deps d).
Proof.
  intros Hdeps. unfold add_specifier.
  match goal with |- context [truthy ?x] => destruct (truthy x) eqn:E end;
    [|assumption].
  apply Forall_app. split; [assumption | now repeat constructor].
Qed.

Lemma add_path_import_truthy deps parts :
  Forall (fun t => truthy t = true) deps ->
  Forall (fun t => truthy t = true) (add_path_import deps parts).
Proof.
  intros Hdeps. unfold add_path_import.
  destruct (3 <=? List.length parts)%nat; [|assumption].
  match goal with |- context [truthy ?x] => destruct (truthy x) eqn:E end;
    [|assumption].
  apply Forall_app. split; [assumption | now repeat constructor].
Qed.

(** X1: no token the extractor returns is the empty string, whatever the
    file holds and whether or not its reading fails. *)
Theorem tokens_are_never_empty file_path :
  Forall (fun t => t <> EmptyString) (fst (get_dependencies file_path)).
Proof.
  rewrite fst_get_dependencies.
  assert (H : Forall (fun t => truthy t = true)
                (fst (scan_lines (content file_path) []))).
  { apply scan_lines_Forall;
      [exact add_specifier_truthy | exact add_path_import_truthy | constructor]. }
  eapply Forall_impl; [|exact H].
  intros t Ht ->. discriminate Ht.
Qed.

(** A trimmed string, and a string cut at its start, hold no character the
    string does not hold. *)
Lemma contains_lstrip c s : contains c s = false -> contains c (lstrip s) = false.
Proof.
  induction s as [|a s IH]; cbn [lstrip contains]; [reflexivity|].
  intros H. apply orb_false_iff in H. destruct H as [Ha Hs].
  destruct (isspace a); [now apply IH|]. cbn [contains]. now rewrite Ha, Hs.
Qed.

Lemma contains_rstrip c s : contains c s = false -> contains c (rstrip s) = false.
Proof.
  induction s as [|a s IH]; cbn [rstrip contains]; [reflexivity|].
  intros H. apply orb_false_iff in H. destruct H as [Ha Hs].
  specialize (IH Hs). destruct (rstrip s) as [|b r].
  - destruct (isspace a); cbn [contains]; [reflexivity|]. now rewrite Ha.
  - cbn [contains] in *. now rewrite Ha, IH.
Qed.

Lemma contains_strip c s : contains c s = false -> contains c (strip s) = false.
Proof.
  intros H. unfold strip. now apply contains_rstrip, contains_lstrip.
Qed.

Lemma contains_drop c n :
  forall s, contains c s = false -> contains c (drop n s) = false.
Proof.
  induction n as [|n IH]; intros [|a s] H; cbn [drop]; try assumption.
  cbn [contains] in H. apply orb_false_iff in H. now apply IH.
Qed.

Lemma contains_unstarred c s :
  contains c s = false -> contains c (unstarred s) = false.
Proof.
  intros H. unfold unstarred.
  destruct (startswith s "*"); [now apply contains_drop | assumption].
Qed.

Lemma add_specifier_punctuation d :
  contains ","%char d = false ->
  Forall (fun t => contains ","%char t = false /\ contains "="%char t = false)
    (add_specifier [] d).
Proof.
  intros Hd. unfold add_specifier.
  set (body := unstarred (strip d)).
  assert (Hbody : contains ","%char body = false)
    by now apply contains_unstarred, contains_strip.
  destruct (contains "="%char body) eqn:Heq.
  - set (alias := strip (last_item (split "="%char body))).
    destruct (truthy alias); [|constructor].
    repeat constructor.
    + unfold alias. apply contains_strip.
      unfold last_item.
      assert (Hall : Forall (fun x => contains ","%char x = false)
                       (split "="%char body)).
      { clear Heq alias. unfold split.
        induction body as [|a b IH]; cbn [split_by]; [now repeat constructor|].
        cbn [contains] in Hbody. apply orb_false_iff in Hbody.
        destruct Hbody as [Ha Hb]. specialize (IH Hb).
        destruct (Ascii.eqb "=" a); [now constructor|].
        destruct (split_by (Ascii.eqb "=") b) as [|x xs].
        - repeat constructor. cbn [contains]. now rewrite Ha.
        - inversion IH; subst. constructor; [|assumption].
          cbn [contains]. rewrite Ha. assumption. }
      induction (split "="%char body) as [|x l IH]; [reflexivity|].
      inversion Hall; subst. destruct l; [assumption | now apply IH].
    + unfold alias. apply contains_strip, basename_without_sep.
  - destruct (truthy body); [|constructor].
    repeat constructor; assumption.
Qed.

(** X2: the tokens that a [/+], [/-] or [/#] line adds hold neither a comma
    nor an equal sign, and there are at most as many of them as the line
    has comma-separated pieces. *)
Theorem named_import_tokens_hold_no_punctuation raw rest deps prefix args :
  split_ws (strip raw) = prefix :: args ->
  elem prefix ["/+"; "/-"; "/#"] = true ->
  let pieces := split ","%char (join " " args) in
  let added := fold_left add_specifier pieces [] in
  scan_lines (Line raw rest) deps = scan_lines rest (deps ++ added)%list
  /\ Forall (fun t => contains ","%char t = false
                      /\ contains "="%char t = false) added
  /\ List.length added <= List.length pieces.
Proof.
  intros Hsplit Helem pieces added.
  split; [|split].
  - rewrite scan_slash by (eapply named_prefix_slash; eassumption).
    rewrite Hsplit, Helem. now rewrite fold_add_specifier_acc.
  - unfold added.
    pose proof (split_pieces_without_sep ","%char (join " " args)) as Hp.
    fold pieces in Hp.
    assert (H : forall l acc,
              Forall (fun x => contains ","%char x = false) l ->
              Forall (fun t => contains ","%char t = false
                               /\ contains "="%char t = false) acc ->
              Forall (fun t => contains ","%char t = false
                               /\ contains "="%char t = false)
                (fold_left add_specifier l acc)).
    { induction l as [|d l IH]; intros acc Hl Hacc; cbn [fold_left];
        [assumption|]. inversion Hl; subst. apply IH; [assumption|].
      rewrite add_specifier_acc. apply Forall_app. split; [assumption|].
      now apply add_specifier_punctuation. }
    apply H; [assumption | constructor].
  - unfold added.
    assert (H : forall l acc,
              List.length (fold_left add_specifier l acc)
              <= List.length acc + List.length l).
    { induction l as [|d l IH]; intros acc; cbn [fold_left List.length]; [lia|].
      specialize (IH (add_specifier acc d)).
      assert (List.length (add_specifier acc d) <= S (List.length acc)).
      { unfold add_specifier.
        match goal with |- context [truthy ?x] => destruct (truthy x) end;
          [rewrite length_app; cbn; lia | lia]. }
      lia. }
    apply (H pieces []).
Qed.

Lemma named_import_tokens_hold_no_punctuation_witness :
  scan_lines (Line ("/-  a=b=c, *d, ," ++ lf) Eof) ["z"]
  = (["z"; "c"; "d"], None).
Proof.
  rewrite (proj1 (@named_import_tokens_hold_no_punctuation
                    ("/-  a=b=c, *d, ," ++ lf) Eof ["z"] "/-"
                    ["a=b=c,"; "*d,"; ","] eq_refl eq_refl)).
  reflexivity.
Defined.





(** ** Dictionaries: assignment and lookup *)

Lemma get_set_same {V} (d : Dict.t V) k v : Dict.get k (Dict.set k v d) = Some v.
Proof.
  induction d as [|[k' v'] r IH]; cbn [Dict.set Dict.get].
  - now rewrite String.eqb_refl.
  - destruct (String.eqb_spec k k') as [->|Hne]; cbn [Dict.get].
    + now rewrite String.eqb_refl.
    + destruct (String.eqb_spec k k'); [congruence | exact IH].
Qed.

Lemma get_set_other {V} (d : Dict.t V) k k' v :
  k' <> k -> Dict.get k' (Dict.set k v d) = Dict.get k' d.
Proof.
  intros Hne. induction d as [|[k0 v0] r IH]; cbn [Dict.set Dict.get].
  - destruct (String.eqb_spec k' k); [congruence | reflexivity].
  - destruct (String.eqb_spec k k0) as [->|Hk]; cbn [Dict.get].
    + destruct (String.eqb_spec k' k0); [congruence | reflexivity].
    + destruct (String.eqb_spec k' k0); [reflexivity | exact IH].
Qed.

Lemma In_keys_set {V} (d : Dict.t V) k v k' :
  In k' (Dict.keys (Dict.set k v d)) <-> k' = k \/ In k' (Dict.keys d).
Proof.
  rewrite <- !mem_In. unfold Dict.mem.
  destruct (String.eqb_spec k' k) as [->|Hne].
  - rewrite get_set_same. tauto.
  - rewrite get_set_other by assumption.
    split; [tauto | intros [?|?]; [contradiction | assumption]].
Qed.

Lemma length_set {V} (d : Dict.t V) k v :
  List.length (Dict.set k v d) <= S (List.length d).
Proof.
  induction d as [|[k' v'] r IH]; cbn [Dict.set List.length]; [lia|].
  destruct (k =? k'); cbn [List.length]; lia.
Qed.

(** ** Discovery: keys, records and collisions *)

Lemma add_hoon_file_set directory files hoon_file :
  add_hoon_file directory files hoon_file
  = Dict.set (package_key_of hoon_file)
      (hoon_file, install_path_of directory hoon_file, name hoon_file) files.
Proof. reflexivity. Qed.

Lemma fold_add_hoon_file_keys directory l :
  forall d k,
    In k (Dict.keys (fold_left (add_hoon_file directory) l d))
    <-> In k (Dict.keys d) \/ exists p, In p l /\ package_key_of p = k.
Proof.
  induction l as [|q l IH]; intros d k; cbn [fold_left].
  - split; [tauto | intros [H|[p [[] _]]]; exact H].
  - rewrite IH, add_hoon_file_set, In_keys_set. split.
    + intros [[->|H]|[p [Hp Hk]]].
      * right. exists q. split; [now left | reflexivity].
      * now left.
      * right. exists p. split; [now right | assumption].
    + intros [H|[p [[->|Hp] Hk]]].
      * left. now right.
      * left. left. now symmetry.
      * right. exists p. tauto.
Qed.

Lemma fold_add_hoon_file_other directory l :
  forall d k,
    (forall q, In q l -> package_key_of q <> k) ->
    Dict.get k (fold_left (add_hoon_file directory) l d) = Dict.get k d.
Proof.
  induction l as [|q l IH]; intros d k Hl; cbn [fold_left]; [reflexivity|].
  rewrite IH by (intros q' Hq'; apply Hl; now right).
  rewrite add_hoon_file_set. apply get_set_other.
  intros ->. apply (Hl q); [now left | reflexivity].
Qed.

Lemma fold_add_hoon_file_length directory l :
  forall d,
    List.length (fold_left (add_hoon_file directory) l d)
    <= List.length d + List.length l.
Proof.
  induction l as [|q l IH]; intros d; cbn [fold_left List.length]; [lia|].
  specialize (IH (add_hoon_file directory d q)).
  assert (H : List.length (add_hoon_file directory d q) <= S (List.length d))
    by (rewrite add_hoon_file_set; apply length_set).
  lia.
Qed.

(** X6: the keys of the discovered map are distinct and are exactly the
    keys of the enumerated files, so the map has at most as many entries as
    files were enumerated; when several files have the same key, the entry
    holds the record of the one enumerated last. *)
Theorem discovery_keeps_last_file_of_each_key (directory : Directory) :
  let files := find_hoon_files directory in
  NoDup (Dict.keys files)
  /\ (forall k, In k (Dict.keys files) <->
        exists p, In p (rglob_hoon directory) /\ package_key_of p = k)
  /\ List.length files <= List.length (rglob_hoon directory)
  /\ (forall before p after,
        rglob_hoon directory = (before ++ p :: after)%list ->
        (forall q, In q after -> package_key_of q <> package_key_of p) ->
        Dict.get (package_key_of p) files
        = Some (p, install_path_of directory p, name p)).
Proof.
  intros files. split; [apply find_hoon_files_NoDup|]. split; [|split].
  - intros k. unfold files, find_hoon_files.
    rewrite fold_add_hoon_file_keys. cbn. tauto.
  - apply (fold_add_hoon_file_length directory (rglob_hoon directory) []).
  - intros before p after Hl Hafter. unfold files, find_hoon_files.
    rewrite Hl, fold_left_app. cbn [fold_left].
    rewrite fold_add_hoon_file_other by assumption.
    rewrite add_hoon_file_set. apply get_set_same.
Qed.

Lemma discovery_keeps_last_file_of_each_key_witness :
  Dict.get "a/x"
    (find_hoon_files
       (mkDirectory "hoon"
          [ mkPath ["a"] "x.hoon" Eof;
            mkPath ["a"] "y.hoon" Eof;
            mkPath ["a"] "x.hoon" (Line "/+  y" Eof) ]))
  = Some (mkPath ["a"] "x.hoon" (Line "/+  y" Eof), "hoon/a", "x.hoon").
Proof.
  apply (proj2 (proj2 (proj2
           (discovery_keeps_last_file_of_each_key
              (mkDirectory "hoon"
                 [ mkPath ["a"] "x.hoon" Eof;
                   mkPath ["a"] "y.hoon" Eof;
                   mkPath ["a"] "x.hoon" (Line "/+  y" Eof) ]))))
           [ mkPath ["a"] "x.hoon" Eof; mkPath ["a"] "y.hoon" Eof ]
           (mkPath ["a"] "x.hoon" (Line "/+  y" Eof)) []).
  - reflexivity.
  - intros q [].
Defined.

Lemma fold_add_hoon_file_records directory (P : string * FileRecord -> Prop) l :
  (forall p, In p l ->
     P (package_key_of p, (p, install_path_of directory p, name p))) ->
  forall d,
    (forall item, In item d -> P item) ->
    forall item, In item (fold_left (add_hoon_file directory) l d) -> P item.
Proof.
  induction l as [|q l IH]; intros Hl d Hd; cbn [fold_left]; [exact Hd|].
  apply IH; [intros p Hp; apply Hl; now right|].
  intros [k v] Hin. rewrite add_hoon_file_set in Hin.
  apply In_set in Hin. destruct Hin as [Heq|Hin]; [|now apply Hd].
  rewrite Heq. apply Hl. now left.
Qed.

(** X7: every record of the discovered map belongs to an enumerated file:
    its key and install path are the ones computed from that file, its
    third component is the file's name, and the install path followed by
    the stem names the same place as the scan directory's name followed by
    the key. *)
Theorem discovered_record_locates_its_file
  (directory : Directory) k file_path install_path filename :
  Dict.get k (find_hoon_files directory)
  = Some (file_path, install_path, filename) ->
  In file_path (rglob_hoon directory)
  /\ k = package_key_of file_path
  /\ install_path = install_path_of directory file_path
  /\ filename = name file_path
  /\ dir_name directory ++ "/" ++ k = install_path ++ "/" ++ stem file_path.
Proof.
  intros Hget. apply get_Some_In in Hget. revert Hget.
  unfold find_hoon_files.
  apply (fold_add_hoon_file_records directory
           (fun item =>
              let '(k, (p, ip, fn)) := item in
              In p (rglob_hoon directory)
              /\ k = package_key_of p
              /\ ip = install_path_of directory p
              /\ fn = name p
              /\ dir_name directory ++ "/" ++ k = ip ++ "/" ++ stem p)
           (rglob_hoon directory)); [|intros item []].
  intros p Hp. repeat split; try assumption.
  unfold package_key_of, install_path_of.
  destruct (truthy (rel_dir_str_of p)); [|reflexivity].
  now rewrite append_assoc.
Qed.

Lemma discovered_record_locates_its_file_witness :
  "hoon" ++ "/" ++ "a/x" = "hoon/a" ++ "/" ++ "x".
Proof.
  exact (proj2 (proj2 (proj2 (proj2
           (@discovered_record_locates_its_file same_dir_tree "a/x"
              (mkPath ["a"] "x.hoon" (Line ("/+  y" ++ lf) Eof))
              "hoon/a" "x.hoon" eq_refl))))).
Defined.

(** ** The resolver: what it returns and when it warns *)

Lemma endswith_refl s : endswith s s = true.
Proof.
  destruct s; cbn [endswith]; now rewrite String.eqb_refl.
Qed.

Lemma endswith_app a b : endswith (a ++ b) b = true.
Proof.
  induction a as [|x a IH]; cbn [append]; [apply endswith_refl|].
  cbn [endswith]. rewrite IH. apply orb_true_r.
Qed.

Lemma last_sep_decomp c s :
  contains c s = true ->
  exists a b, s = a ++ String c b /\ contains c b = false.
Proof.
  induction s as [|x s IH]; cbn [contains]; [discriminate|].
  destruct (contains c s) eqn:Hs.
  - intros _. destruct (IH eq_refl) as [a [b [-> Hb]]].
    exists (String x a), b. split; [reflexivity | assumption].
  - rewrite orb_false_r. intros Hx. apply Ascii.eqb_eq in Hx. subst x.
    exists EmptyString, s. split; [reflexivity | assumption].
Qed.

Lemma endswith_bare_name dep_name :
  contains "/"%char dep_name = true ->
  endswith dep_name ("/" ++ bare_name dep_name) = true.
Proof.
  intros H. unfold bare_name. rewrite H.
  destruct (last_sep_decomp _ _ H) as [a [b [-> Hb]]].
  rewrite last_item_split by assumption. apply (endswith_app a (String "/" b)).
Qed.

Lemma in_suffix_matches name (files : Files) k :
  Dict.mem k files = true ->
  endswith k ("/" ++ name) = true \/ k = name ->
  In k (suffix_matches name files).
Proof.
  intros Hmem Hk. unfold suffix_matches. rewrite filter_In. split.
  - now apply mem_In.
  - apply orb_true_iff. destruct Hk as [Hk| ->]; [now left|].
    right. apply String.eqb_refl.
Qed.

Lemma search_all_fst name dir (files : Files) :
  fst (search_all name dir files) = hd_error (suffix_matches name files).
Proof.
  unfold search_all. destruct (suffix_matches name files) as [|m [|m' r]];
    reflexivity.
Qed.

Lemma sibling_key_ends dir name key :
  sibling_key dir name = Some key -> endswith key ("/" ++ name) = true.
Proof.
  unfold sibling_key.
  destruct (1 <? List.length (split "/"%char dir))%nat; [|discriminate].
  intros H. injection H as <-.
  apply (endswith_app _ ("/" ++ name)).
Qed.

Lemma resolve_name_in_matches name dir (files : Files) k :
  fst (resolve_name name dir files) = Some k ->
  In k (suffix_matches name files).
Proof.
  assert (Hsearch : fst (search_all name dir files) = Some k ->
                    In k (suffix_matches name files)).
  { rewrite search_all_fst.
    destruct (suffix_matches name files); cbn; [discriminate|].
    intros H; injection H as ->. now left. }
  unfold resolve_name.
  destruct (truthy dir && Dict.mem (same_dir_key dir name) files) eqn:E1.
  { cbn. intros H; injection H as <-. apply andb_true_iff in E1.
    apply in_suffix_matches; [tauto|]. left.
    apply (endswith_app dir ("/" ++ name)). }
  destruct (Dict.mem name files) eqn:E2.
  { cbn. intros H; injection H as <-. apply in_suffix_matches; tauto. }
  destruct (if truthy dir then sibling_key dir name else None) as [key|] eqn:E3;
    [|exact Hsearch].
  destruct (Dict.mem key files) eqn:E4; [|exact Hsearch].
  cbn. intros H; injection H as <-. apply in_suffix_matches; [assumption|].
  left. destruct (truthy dir); [|discriminate].
  eapply sibling_key_ends; eassumption.
Qed.

Lemma resolve_name_none name dir (files : Files) :
  fst (resolve_name name dir files) = None -> suffix_matches name files = [].
Proof.
  assert (Hsearch : fst (search_all name dir files) = None ->
                    suffix_matches name files = []).
  { rewrite search_all_fst.
    destruct (suffix_matches name files); [reflexivity | discriminate]. }
  unfold resolve_name.
  destruct (truthy dir && Dict.mem (same_dir_key dir name) files);
    [discriminate|].
  destruct (Dict.mem name files); [discriminate|].
  destruct (if truthy dir then sibling_key dir name else None) as [key|];
    [|exact Hsearch].
  destruct (Dict.mem key files); [discriminate | exact Hsearch].
Qed.

Lemma resolve_dependency_in_matches dep_name dir (files : Files) k :
  fst (resolve_dependency dep_name dir files) = Some k ->
  In k (suffix_matches (bare_name dep_name) files).
Proof.
  unfold resolve_dependency.
  destruct (contains "/"%char dep_name) eqn:Hsep.
  - destruct (Dict.mem dep_name files) eqn:Hmem.
    + cbn. intros H; injection H as <-.
      apply in_suffix_matches; [assumption|]. left.
      now apply endswith_bare_name.
    + unfold bare_name. rewrite Hsep. apply resolve_name_in_matches.
  - unfold bare_name. rewrite Hsep. apply resolve_name_in_matches.
Qed.

Lemma resolve_dependency_none dep_name dir (files : Files) :
  fst (resolve_dependency dep_name dir files) = None ->
  suffix_matches (bare_name dep_name) files = [].
Proof.
  unfold resolve_dependency, bare_name.
  destruct (contains "/"%char dep_name).
  - destruct (Dict.mem dep_name files); [discriminate|].
    apply resolve_name_none.
  - apply resolve_name_none.
Qed.

(** X8: whatever rule gives it, the key the resolver returns is a key of
    the file map that is the bare name of the token or ends with a slash
    and that name; and resolution fails exactly when the file map has no
    such key. *)
Theorem resolution_is_a_suffix_match dep_name dir (files : Files) :
  (forall k, fst (resolve_dependency dep_name dir files) = Some k ->
     In k (Dict.keys files)
     /\ (endswith k ("/" ++ bare_name dep_name) = true
         \/ k = bare_name dep_name))
  /\ (fst (resolve_dependency dep_name dir files) = None
      <-> forall k, In k (Dict.keys files) ->
            endswith k ("/" ++ bare_name dep_name) = false
            /\ k <> bare_name dep_name).
Proof.
  split.
  - intros k Hk. apply resolve_dependency_in_matches in Hk.
    unfold suffix_matches in Hk.
    rewrite filter_In, orb_true_iff, String.eqb_eq in Hk. exact Hk.
  - split.
    + intros Hnone k Hin. apply resolve_dependency_none in Hnone.
      assert (Hk : ~ In k (suffix_matches (bare_name dep_name) files))
        by (rewrite Hnone; tauto).
      unfold suffix_matches in Hk.
      rewrite filter_In, orb_true_iff, String.eqb_eq in Hk.
      destruct (endswith k ("/" ++ bare_name dep_name)); split; try tauto;
        try reflexivity.
    + intros Hnone.
      destruct (fst (resolve_dependency dep_name dir files)) as [k|] eqn:E;
        [|reflexivity].
      apply resolve_dependency_in_matches in E. unfold suffix_matches in E.
      rewrite filter_In, orb_true_iff, String.eqb_eq in E.
      destruct E as [Hin [Hend|Heq]]; destruct (Hnone k Hin); congruence.
Qed.

Lemma resolution_is_a_suffix_match_witness :
  In "a/y" (Dict.keys (find_hoon_files same_dir_tree))
  /\ (endswith "a/y" ("/" ++ bare_name "lib/y") = true
      \/ "a/y" = bare_name "lib/y").
Proof.
  apply (proj1 (resolution_is_a_suffix_match "lib/y" "a"
                  (find_hoon_files same_dir_tree)) "a/y").
  reflexivity.
Defined.

Lemma search_all_snd name dir (files : Files) :
  snd (search_all name dir files) = []
  \/ exists m1 m2 rest,
       suffix_matches name files = m1 :: m2 :: rest
       /\ search_all name dir files
          = (Some m1, [Ambiguous name dir (m1 :: m2 :: rest)]).
Proof.
  unfold search_all.
  destruct (suffix_matches name files) as [|m1 [|m2 rest]];
    [now left | now left | right].
  exists m1, m2, rest. split; reflexivity.
Qed.

Lemma resolve_name_snd name dir (files : Files) :
  snd (resolve_name name dir files) = []
  \/ exists m1 m2 rest,
       suffix_matches name files = m1 :: m2 :: rest
       /\ resolve_name name dir files
          = (Some m1, [Ambiguous name dir (m1 :: m2 :: rest)]).
Proof.
  unfold resolve_name.
  destruct (truthy dir && Dict.mem (same_dir_key dir name) files);
    [now left|].
  destruct (Dict.mem name files); [now left|].
  destruct (if truthy dir then sibling_key dir name else None) as [key|];
    [|apply search_all_snd].
  destruct (Dict.mem key files); [now left | apply search_all_snd].
Qed.

Lemma resolve_dependency_snd dep_name dir (files : Files) :
  snd (resolve_dependency dep_name dir files) = []
  \/ exists m1 m2 rest,
       suffix_matches (bare_name dep_name) files = m1 :: m2 :: rest
       /\ resolve_dependency dep_name dir files
          = (Some m1, [Ambiguous (bare_name dep_name) dir (m1 :: m2 :: rest)]).
Proof.
  unfold resolve_dependency, bare_name.
  destruct (contains "/"%char dep_name).
  - destruct (Dict.mem dep_name files); [now left | apply resolve_name_snd].
  - apply resolve_name_snd.
Qed.

(** X9: the resolver prints at most one warning, and only when it returns
    the first of several keys found by the last-resort search; when exactly
    one key of the file map is the bare name or ends with a slash and that
    name, that key is returned without a warning, from whatever directory
    the import is made. *)
Theorem resolver_warns_only_on_several_matches dep_name dir (files : Files) :
  (snd (resolve_dependency dep_name dir files) = []
   \/ exists m1 m2 rest,
        suffix_matches (bare_name dep_name) files = m1 :: m2 :: rest
        /\ resolve_dependency dep_name dir files
           = (Some m1,
              [Ambiguous (bare_name dep_name) dir (m1 :: m2 :: rest)]))
  /\ (forall m,
        suffix_matches (bare_name dep_name) files = [m] ->
        resolve_dependency dep_name dir files = (Some m, [])).
Proof.
  split; [apply resolve_dependency_snd|].
  intros m Hm.
  rewrite (surjective_pairing (resolve_dependency dep_name dir files)).
  f_equal.
  - destruct (fst (resolve_dependency dep_name dir files)) as [k|] eqn:E.
    + apply resolve_dependency_in_matches in E. rewrite Hm in E.
      destruct E as [->|[]]. reflexivity.
    + apply resolve_dependency_none in E. congruence.
  - destruct (resolve_dependency_snd dep_name dir files)
      as [H|[m1 [m2 [rest [H _]]]]]; [exact H | congruence].
Qed.

Lemma resolver_warns_only_on_several_matches_witness :
  resolve_dependency "x" "anywhere/else" (find_hoon_files same_dir_tree)
  = (Some "a/x", []).
Proof.
  apply (proj2 (resolver_warns_only_on_several_matches "x" "anywhere/else"
                  (find_hoon_files same_dir_tree)) "a/x").
  reflexivity.
Defined.

(** ** The resolver: what it depends on *)

Lemma mem_ext (f1 f2 : Files) :
  (forall k, In k (Dict.keys f1) <-> In k (Dict.keys f2)) ->
  forall k, Dict.mem k f1 = Dict.mem k f2.
Proof.
  intros H k.
  destruct (Dict.mem k f1) eqn:E1, (Dict.mem k f2) eqn:E2; try reflexivity.
  - apply mem_In, H, mem_In in E1. congruence.
  - apply mem_In, H, mem_In in E2. congruence.
Qed.

Lemma resolve_name_ext name dir (f1 f2 : Files) :
  (forall k, Dict.mem k f1 = Dict.mem k f2) ->
  suffix_matches name f1 = suffix_matches name f2 ->
  resolve_name name dir f1 = resolve_name name dir f2.
Proof.
  intros Hmem Hm. unfold resolve_name, search_all.
  now rewrite !Hmem, Hm;
    destruct (if truthy dir then sibling_key dir name else None);
    rewrite ?Hmem.
Qed.

Lemma resolve_dependency_ext dep_name dir (f1 f2 : Files) :
  (forall k, Dict.mem k f1 = Dict.mem k f2) ->
  suffix_matches (bare_name dep_name) f1 = suffix_matches (bare_name dep_name) f2 ->
  resolve_dependency dep_name dir f1 = resolve_dependency dep_name dir f2.
Proof.
  intros Hmem Hm. unfold resolve_dependency. unfold bare_name in Hm.
  rewrite Hmem.
  destruct (contains "/"%char dep_name).
  - destruct (Dict.mem dep_name f2); [reflexivity|].
    now apply resolve_name_ext.
  - now apply resolve_name_ext.
Qed.

(** X10: the resolver looks at the keys of the file map only: two file
    maps with the same keys in the same order give the same key and the
    same warning, whatever their records are. *)
Theorem resolution_depends_on_keys_only dep_name dir (f1 f2 : Files) :
  Dict.keys f1 = Dict.keys f2 ->
  resolve_dependency dep_name dir f1 = resolve_dependency dep_name dir f2.
Proof.
  intros Hkeys. apply resolve_dependency_ext.
  - apply mem_ext. intros k. now rewrite Hkeys.
  - unfold suffix_matches. now rewrite Hkeys.
Qed.

Lemma resolution_depends_on_keys_only_witness :
  resolve_dependency "y" "hoon/a" (find_hoon_files same_dir_tree)
  = resolve_dependency "y" "hoon/a"
      [ ("a/x", (mkPath [] "" Eof, "", ""));
        ("a/y", (mkPath [] "" Eof, "", ""));
        ("y", (mkPath [] "" Eof, "", "")) ].
Proof.
  apply (@resolution_depends_on_keys_only "y" "hoon/a"
           (find_hoon_files same_dir_tree)).
  reflexivity.
Defined.

Lemma Permutation_filter_keys (p : string -> bool) l1 l2 :
  Permutation l1 l2 -> Permutation (filter p l1) (filter p l2).
Proof.
  induction 1 as [|x l l' _ IH|x y l|l l' l'' _ IH1 _ IH2]; cbn [filter].
  - constructor.
  - destruct (p x); [now constructor | assumption].
  - destruct (p x), (p y); try apply Permutation_refl. apply perm_swap.
  - eapply Permutation_trans; eassumption.
Qed.

Lemma short_Permutation_eq (l1 l2 : list string) :
  Permutation l1 l2 -> List.length l1 <= 1 -> l1 = l2.
Proof.
  intros Hp Hl. destruct l1 as [|a [|b l1]]; cbn in Hl; [| |lia].
  - apply Permutation_nil in Hp. now subst.
  - apply Permutation_length_1_inv in Hp. now subst.
Qed.

(** X11: when at most one key of the discovered map is the bare name or
    ends with a slash and that name, the outcome of resolution is the same
    for every order in which the file system enumerates the same files. *)
Theorem unambiguous_resolution_ignores_enumeration_order
  (d1 d2 : Directory) dep_name dir :
  Permutation (rglob_hoon d1) (rglob_hoon d2) ->
  List.length (suffix_matches (bare_name dep_name) (find_hoon_files d1)) <= 1 ->
  resolve_dependency dep_name dir (find_hoon_files d1)
  = resolve_dependency dep_name dir (find_hoon_files d2).
Proof.
  intros Hperm Hlen.
  assert (Hkeys : forall k,
            In k (Dict.keys (find_hoon_files d1))
            <-> In k (Dict.keys (find_hoon_files d2))).
  { intros k. unfold find_hoon_files.
    rewrite !fold_add_hoon_file_keys. cbn [Dict.keys Dict.empty map In].
    split; intros [[]|[p [Hp Hk]]]; right; exists p; split; try assumption.
    - eapply Permutation_in; eassumption.
    - eapply Permutation_in; [apply Permutation_sym|]; eassumption. }
  apply resolve_dependency_ext; [now apply mem_ext|].
  apply short_Permutation_eq; [|assumption].
  unfold suffix_matches. apply Permutation_filter_keys.
  apply NoDup_Permutation; try apply find_hoon_files_NoDup. exact Hkeys.
Qed.

Lemma unambiguous_resolution_ignores_enumeration_order_witness :
  resolve_dependency "app" "hoon/pkg" (find_hoon_files ambiguous_tree)
  = resolve_dependency "app" "hoon/pkg"
      (find_hoon_files ambiguous_tree_reordered).
Proof.
  apply unambiguous_resolution_ignores_enumeration_order.
  - apply perm_swap.
  - cbn. lia.
Defined.

(** ** The resolver: the sibling rule *)

Lemma join_split c s : join (String c EmptyString) (split c s) = s.
Proof.
  unfold split. induction s as [|x s IH]; cbn [split_by]; [reflexivity|].
  pose proof (@split_by_not_nil (Ascii.eqb c) s) as Hne.
  destruct (Ascii.eqb_spec c x) as [<-|Hx].
  - destruct (split_by (Ascii.eqb c) s) as [|h t]; [congruence|].
    rewrite join_cons2, IH. reflexivity.
  - destruct (split_by (Ascii.eqb c) s) as [|h [|h' t]]; [congruence| |].
    + cbn [join] in *. now rewrite IH.
    + rewrite join_cons2. rewrite join_cons2 in IH. rewrite <- IH.
      reflexivity.
Qed.

Lemma truthy_with_sep a c b : truthy (a ++ String c b) = true.
Proof. destruct a; reflexivity. Qed.

Lemma sibling_key_of_nested parent leaf name :
  contains "/"%char leaf = false ->
  sibling_key (parent ++ "/" ++ leaf) name = Some (parent ++ "/" ++ name).
Proof.
  intros Hleaf. unfold sibling_key; cbv zeta.
  change (parent ++ "/" ++ leaf) with (parent ++ String "/" leaf).
  rewrite split_app_sep, (split_no_sep _ _ Hleaf).
  rewrite removelast_last, join_split.
  rewrite length_app. cbn [List.length].
  pose proof (@split_by_not_nil (Ascii.eqb "/"%char) parent) as Hne.
  fold (split "/"%char parent) in Hne.
  destruct (split "/"%char parent) as [|h t]; [congruence|].
  cbn [List.length]. replace (S (List.length t) + 1) with (S (S (List.length t)))
    by lia.
  reflexivity.
Qed.

(** X12: for a directory of several segments the sibling key is the
    directory without its last segment, a slash and the name, and it is the
    result when neither the same-directory key nor the bare name is a key
    and it is one; a directory of one segment has no sibling key. *)
Theorem sibling_rule_replaces_last_segment parent leaf dep_name (files : Files) :
  contains "/"%char leaf = false ->
  sibling_key (parent ++ "/" ++ leaf) dep_name = Some (parent ++ "/" ++ dep_name)
  /\ sibling_key leaf dep_name = None
  /\ (Dict.mem (same_dir_key (parent ++ "/" ++ leaf) dep_name) files = false ->
      Dict.mem dep_name files = false ->
      Dict.mem (parent ++ "/" ++ dep_name) files = true ->
      resolve_name dep_name (parent ++ "/" ++ leaf) files
      = (Some (parent ++ "/" ++ dep_name), [])).
Proof.
  intros Hleaf. split; [now apply sibling_key_of_nested|]. split.
  - unfold sibling_key. now rewrite split_no_sep.
  - intros Hsame Hroot Hsib. unfold resolve_name.
    rewrite Hsame, Hroot, andb_false_r.
    change (parent ++ "/" ++ leaf) with (parent ++ String "/" leaf) at 1.
    rewrite truthy_with_sep, sibling_key_of_nested by assumption.
    now rewrite Hsib.
Qed.

Lemma sibling_rule_replaces_last_segment_witness :
  resolve_name "x" ("a" ++ "/" ++ "sub") (find_hoon_files same_dir_tree)
  = (Some ("a" ++ "/" ++ "x"), []).
Proof.
  apply (@sibling_rule_replaces_last_segment "a" "sub" "x"
           (find_hoon_files same_dir_tree) eq_refl); reflexivity.
Defined.

(** ** The graph builder: stripping, edges and warnings *)

Lemma length_append (a b : string) :
  String.length (a ++ b) = String.length a + String.length b.
Proof.
  induction a as [|x a IH]; cbn [append String.length]; [reflexivity|].
  now rewrite IH.
Qed.

Lemma drop_append a b : drop (String.length a) (a ++ b) = b.
Proof.
  induction a as [|x a IH]; cbn [append String.length drop].
  - now destruct b.
  - exact IH.
Qed.

Lemma startswith_split s p :
  startswith s p = true -> s = p ++ drop (String.length p) s.
Proof.
  revert s. induction p as [|a p IH]; intros s; cbn [startswith].
  - intros _. now destruct s.
  - destruct s as [|b s]; [discriminate|].
    intros H. apply andb_true_iff in H. destruct H as [Hab Hs].
    apply Ascii.eqb_eq in Hab. subst b.
    cbn [String.length drop append]. f_equal. now apply IH.
Qed.

(** X13: stripping removes the scan directory's name and the slash after
    it from a token that starts with them, once, and leaves any other token
    as it is. *)
Theorem strip_scan_dir_removes_one_prefix scan_dir_name dep_name :
  strip_scan_dir scan_dir_name (scan_dir_name ++ "/" ++ dep_name) = dep_name
  /\ (startswith dep_name (scan_dir_name ++ "/") = false ->
      strip_scan_dir scan_dir_name dep_name = dep_name)
  /\ (strip_scan_dir scan_dir_name dep_name = dep_name
      \/ dep_name
         = scan_dir_name ++ "/" ++ strip_scan_dir scan_dir_name dep_name).
Proof.
  split; [|split].
  - unfold strip_scan_dir. rewrite <- append_assoc.
    rewrite startswith_append.
    replace (String.length scan_dir_name + 1)
      with (String.length (scan_dir_name ++ "/"))
      by (rewrite length_append; reflexivity).
    apply drop_append.
  - intros H. unfold strip_scan_dir. now rewrite H.
  - unfold strip_scan_dir.
    destruct (startswith dep_name (scan_dir_name ++ "/")) eqn:E; [|now left].
    right. apply startswith_split in E.
    rewrite length_append in E. cbn [String.length] in E.
    rewrite append_assoc in E. exact E.
Qed.

Lemma strip_scan_dir_removes_one_prefix_witness :
  strip_scan_dir "common" "v0-v1/table/compute" = "v0-v1/table/compute".
Proof.
  apply (proj1 (proj2 (strip_scan_dir_removes_one_prefix
                         "common" "v0-v1/table/compute"))).
  reflexivity.
Defined.

Lemma resolved_deps_flat_map scan_dir_name full_key file_dir (files : Files) raw_deps :
  forall acc,
    fst (for_each raw_deps acc
           (resolve_raw_dep scan_dir_name full_key file_dir files))
    = (acc ++ flat_map (edge_of scan_dir_name file_dir files) raw_deps)%list.
Proof.
  induction raw_deps as [|d r IH]; intros acc; cbn [for_each flat_map].
  - cbn. now rewrite app_nil_r.
  - rewrite fst_bind, IH, fst_resolve_raw_dep. unfold edge_of.
    destruct (fst (resolve_dependency _ _ _)) as [key|]; [|reflexivity].
    destruct (truthy key); [now rewrite <- app_assoc | reflexivity].
Qed.

(** X14: the adjacency list of a file is the list of the keys its tokens
    resolve to, in the order of the tokens, a token that resolves several
    times giving its key several times and a token that does not resolve
    giving nothing; so it is never longer than the list of tokens. *)
Theorem adjacency_follows_token_order
  scan_dir_name (files : Files) full_key file_path file_dir filename :
  let raw_deps := fst (get_dependencies file_path) in
  adjacency scan_dir_name files (full_key, (file_path, file_dir, filename))
  = flat_map (edge_of scan_dir_name file_dir files) raw_deps
  /\ List.length
       (adjacency scan_dir_name files (full_key, (file_path, file_dir, filename)))
     <= List.length raw_deps.
Proof.
  intros raw_deps.
  assert (H : adjacency scan_dir_name files
                (full_key, (file_path, file_dir, filename))
              = flat_map (edge_of scan_dir_name file_dir files) raw_deps).
  { unfold adjacency. now rewrite resolved_deps_flat_map. }
  split; [exact H|]. rewrite H. clear H.
  induction raw_deps as [|d r IH]; cbn [flat_map List.length]; [lia|].
  rewrite length_app.
  assert (List.length (edge_of scan_dir_name file_dir files d) <= 1).
  { unfold edge_of. destruct (fst (resolve_dependency _ _ _)) as [key|];
      [destruct (truthy key)|]; cbn; lia. }
  lia.
Qed.

Lemma count_could_not_resolve_app w1 w2 :
  List.length (filter is_could_not_resolve (w1 ++ w2))
  = List.length (filter is_could_not_resolve w1)
    + List.length (filter is_could_not_resolve w2).
Proof.
  now rewrite filter_app, length_app.
Qed.

Lemma resolve_dependency_no_unresolved dep_name dir (files : Files) :
  filter is_could_not_resolve (snd (resolve_dependency dep_name dir files)) = [].
Proof.
  destruct (resolve_dependency_snd dep_name dir files)
    as [->|[m1 [m2 [rest [_ ->]]]]]; reflexivity.
Qed.

Lemma resolve_raw_dep_count scan_dir_name full_key file_dir (files : Files) acc d :
  let out := resolve_raw_dep scan_dir_name full_key file_dir files acc d in
  List.length (fst out) + List.length (filter is_could_not_resolve (snd out))
  = S (List.length acc).
Proof.
  cbv zeta. unfold resolve_raw_dep.
  rewrite fst_bind, snd_bind, count_could_not_resolve_app.
  rewrite resolve_dependency_no_unresolved.
  destruct (fst (resolve_dependency _ _ _)) as [key|];
    [destruct (truthy key)|]; cbn; rewrite ?length_app; cbn; lia.
Qed.

Lemma resolved_deps_count scan_dir_name full_key file_dir (files : Files) raw_deps :
  forall acc,
    let out := for_each raw_deps acc
                 (resolve_raw_dep scan_dir_name full_key file_dir files) in
    List.length (fst out) + List.length (filter is_could_not_resolve (snd out))
    = List.length acc + List.length raw_deps.
Proof.
  induction raw_deps as [|d r IH]; intros acc; cbv zeta; cbn [for_each].
  - cbn. lia.
  - rewrite fst_bind, snd_bind, count_could_not_resolve_app.
    pose proof (resolve_raw_dep_count scan_dir_name full_key file_dir files
                  acc d) as Hstep.
    cbv zeta in Hstep.
    specialize (IH (fst (resolve_raw_dep scan_dir_name full_key file_dir
                           files acc d))).
    cbv zeta in IH. cbn [List.length]. lia.
Qed.

(** X15: no token is lost without a trace: for each file, the number of
    edges plus the number of "could not resolve" warnings is the number of
    tokens of the file. *)
Theorem every_token_gives_an_edge_or_a_warning
  scan_dir_name full_key file_dir (files : Files) raw_deps :
  let out := for_each raw_deps []
               (resolve_raw_dep scan_dir_name full_key file_dir files) in
  List.length (fst out) + List.length (filter is_could_not_resolve (snd out))
  = List.length raw_deps.
Proof.
  apply (resolved_deps_count scan_dir_name full_key file_dir files raw_deps []).
Qed.

(** ** The manifest: order, number of blocks, aliases *)

Lemma registry_lines_parts
  workspace_name git_url ref description root_path (files : Files) graph :
  registry_lines workspace_name git_url ref description root_path files graph
  = (heading_lines workspace_name git_url ref description root_path
     ++ flat_map (package_lines workspace_name graph)
          (sorted_items (Dict.items files))
     ++ alias_section (collected_aliases workspace_name files))%list.
Proof.
  unfold registry_lines. rewrite fold_add_package.
  change ([] ++ flat_map (package_aliases workspace_name)
                  (sorted_items (Dict.items files)))%list
    with (flat_map (package_aliases workspace_name)
            (sorted_items (Dict.items files))).
  fold (heading_lines workspace_name git_url ref description root_path).
  fold (collected_aliases workspace_name files).
  unfold alias_section.
  destruct (collected_aliases workspace_name files) as [|a l].
  - now rewrite app_nil_r.
  - now rewrite <- app_assoc.
Qed.

Lemma insert_item_Permutation {V} (x : string * V) l :
  Permutation (insert_item x l) (x :: l).
Proof.
  induction l as [|y l IH]; cbn [insert_item]; [apply Permutation_refl|].
  destruct (fst x <=? fst y); [apply Permutation_refl|].
  eapply Permutation_trans; [apply perm_skip, IH | apply perm_swap].
Qed.

Lemma sorted_items_Permutation {V} (l : list (string * V)) :
  Permutation (sorted_items l) l.
Proof.
  induction l as [|x l IH]; cbn [sorted_items]; [constructor|].
  eapply Permutation_trans; [apply insert_item_Permutation|].
  now apply perm_skip.
Qed.

Lemma insert_item_HdRel {V} (x y : string * V) l :
  key_le y x -> HdRel key_le y l -> HdRel key_le y (insert_item x l).
Proof.
  intros Hyx Hl. destruct l as [|z l]; cbn [insert_item].
  - now constructor.
  - destruct (fst x <=? fst z); constructor; [assumption|].
    now inversion Hl.
Qed.

Lemma insert_item_Sorted {V} (x : string * V) l :
  Sorted key_le l -> Sorted key_le (insert_item x l).
Proof.
  induction l as [|y l IH]; intros Hl; cbn [insert_item].
  - repeat constructor.
  - destruct (fst x <=? fst y) eqn:E.
    + constructor; [assumption | now constructor].
    + inversion Hl; subst. constructor; [now apply IH|].
      apply insert_item_HdRel; [|assumption].
      unfold key_le. destruct (String.leb_total (fst x) (fst y)); congruence.
Qed.

Lemma sorted_items_Sorted {V} (l : list (string * V)) :
  Sorted key_le (sorted_items l).
Proof.
  induction l as [|x l IH]; cbn [sorted_items]; [constructor|].
  now apply insert_item_Sorted.
Qed.

(** X16: between the heading and the alias section the manifest holds the
    package blocks of the items of the file map, each once, in ascending
    order of their keys, whatever the order of the file map is. *)
Theorem manifest_blocks_in_key_order
  workspace_name git_url ref description root_path (files : Files) graph :
  let order := sorted_items (Dict.items files) in
  registry_lines workspace_name git_url ref description root_path files graph
  = (heading_lines workspace_name git_url ref description root_path
     ++ flat_map (package_lines workspace_name graph) order
     ++ alias_section (collected_aliases workspace_name files))%list
  /\ Permutation order files
  /\ Sorted key_le order.
Proof.
  intros order. split; [apply registry_lines_parts|]. split.
  - apply sorted_items_Permutation.
  - apply sorted_items_Sorted.
Qed.

Lemma count_line_app line l1 l2 :
  count_line line (l1 ++ l2) = count_line line l1 + count_line line l2.
Proof.
  unfold count_line. now rewrite filter_app, length_app.
Qed.

Lemma count_package_in_block workspace_name graph item :
  count_line "[[package]]" (package_lines workspace_name graph item) = 1
  /\ count_line "[[alias]]" (package_lines workspace_name graph item) = 0.
Proof.
  destruct item as [k [[p ip] fn]]. unfold package_lines.
  destruct (graph_get graph k); split; reflexivity.
Qed.

Lemma count_in_blocks workspace_name graph items :
  count_line "[[package]]"
    (flat_map (package_lines workspace_name graph) items)
  = List.length items
  /\ count_line "[[alias]]"
       (flat_map (package_lines workspace_name graph) items) = 0.
Proof.
  induction items as [|item items [IH1 IH2]]; cbn [flat_map List.length];
    [split; reflexivity|].
  rewrite !count_line_app, IH1, IH2.
  destruct (count_package_in_block workspace_name graph item) as [-> ->].
  split; reflexivity.
Qed.

Lemma count_in_alias_blocks aliases :
  forall acc,
    count_line "[[package]]"
      (fold_left (fun ls a => ls ++ alias_lines a)%list aliases acc)
    = count_line "[[package]]" acc
    /\ count_line "[[alias]]"
         (fold_left (fun ls a => ls ++ alias_lines a)%list aliases acc)
       = count_line "[[alias]]" acc + List.length aliases.
Proof.
  induction aliases as [|[a t] l IH]; intros acc; cbn [fold_left List.length].
  - split; lia.
  - destruct (IH (acc ++ alias_lines (a, t))%list) as [-> ->].
    rewrite !count_line_app.
    replace (count_line "[[package]]" (alias_lines (a, t))) with 0
      by reflexivity.
    replace (count_line "[[alias]]" (alias_lines (a, t))) with 1
      by reflexivity.
    split; lia.
Qed.

(** The list of emitted lines has exactly one element [[[package]]] for
    each entry of the file map and one element [[[alias]]] for each collected
    alias. *)
Theorem manifest_has_one_block_per_entry
  workspace_name git_url ref description root_path (files : Files) graph :
  let lines :=
    registry_lines workspace_name git_url ref description root_path files graph in
  count_line "[[package]]" lines = List.length files
  /\ count_line "[[alias]]" lines
     = List.length (collected_aliases workspace_name files).
Proof.
  intros lines. unfold lines. rewrite registry_lines_parts.
  rewrite !count_line_app.
  destruct (count_in_blocks workspace_name graph
              (sorted_items (Dict.items files))) as [-> ->].
  rewrite (Permutation_length (sorted_items_Permutation (Dict.items files))).
  replace (count_line "[[package]]"
             (heading_lines workspace_name git_url ref description root_path))
    with 0 by reflexivity.
  replace (count_line "[[alias]]"
             (heading_lines workspace_name git_url ref description root_path))
    with 0 by reflexivity.
  unfold alias_section.
  destruct (collected_aliases workspace_name files) as [|a l] eqn:E.
  - split; cbn; unfold Dict.items; lia.
  - rewrite !count_line_app.
    destruct (count_in_alias_blocks (a :: l) []) as [-> ->].
    split; cbn; unfold Dict.items; lia.
Qed.

Lemma append_inv_head (a b c : string) : a ++ b = a ++ c -> b = c.
Proof.
  induction a as [|x a IH]; cbn [append]; [tauto|].
  intros H. injection H as H. now apply IH.
Qed.

Lemma qualified_inj workspace_name a b :
  qualified workspace_name a = qualified workspace_name b -> a = b.
Proof.
  unfold qualified. intros H. apply append_inv_head in H.
  now apply (append_inv_head "/") in H.
Qed.

Lemma elem_In x l : elem x l = true <-> In x l.
Proof.
  unfold elem. rewrite existsb_exists. split.
  - intros [y [Hy Heq]]. apply String.eqb_eq in Heq. now subst.
  - intros H. exists x. split; [assumption | apply String.eqb_refl].
Qed.

Lemma In_add_special_alias workspace_name (files : Files) acc a t x :
  In x (add_special_alias workspace_name files acc (a, t))
  <-> In x acc
      \/ (x = (qualified workspace_name a, qualified workspace_name t)
          /\ In t (Dict.keys files)).
Proof.
  unfold add_special_alias.
  destruct (elem (qualified workspace_name t)
              (map (qualified workspace_name) (Dict.keys files))) eqn:E.
  - apply elem_In, in_map_iff in E. destruct E as [t' [Ht' Hin]].
    apply qualified_inj in Ht'. subst t'.
    rewrite in_app_iff. cbn [In]. split.
    + intros [H|[H|[]]]; [now left | right; split; [now symmetry | assumption]].
    + intros [H|[H _]]; [now left | right; left; now symmetry].
  - split; [now left|]. intros [H|[_ Hin]]; [assumption|].
    assert (Ht : elem (qualified workspace_name t)
                   (map (qualified workspace_name) (Dict.keys files)) = true)
      by (apply elem_In, in_map; assumption).
    congruence.
Qed.

Lemma In_package_aliases workspace_name items x :
  In x (flat_map (package_aliases workspace_name) items) ->
  exists filename_stem,
    fst x = qualified workspace_name filename_stem
    /\ elem filename_stem
         ["one"; "two"; "four"; "five"; "six"; "seven"; "eight"] = true.
Proof.
  rewrite in_flat_map. intros [[k [[p ip] fn]] [_ Hx]].
  unfold package_aliases in Hx.
  destruct (startswith k "common/ztd/"); [|destruct Hx].
  destruct (elem (replace ".hoon" "" fn) _) eqn:E; cbn in Hx; [|tauto].
  destruct Hx as [<-|[]]. exists (replace ".hoon" "" fn). now split.
Qed.

(** X18: each of the three fixed short names [zeke], [zoon], [zose] is
    among the collected aliases, with its fixed target, exactly when the
    target is a key of the file map. *)
Theorem special_alias_iff_target_is_a_key
  workspace_name (files : Files) alias_name target_path :
  In (alias_name, target_path) special_aliases ->
  (In (qualified workspace_name alias_name,
       qualified workspace_name target_path)
      (collected_aliases workspace_name files)
   <-> In target_path (Dict.keys files)).
Proof.
  intros Hspecial.
  assert (Hbase : ~ In (qualified workspace_name alias_name,
                        qualified workspace_name target_path)
                       (flat_map (package_aliases workspace_name)
                          (sorted_items (Dict.items files)))).
  { intros Hin. apply In_package_aliases in Hin.
    destruct Hin as [filename_stem [Heq Helem]]. cbn [fst] in Heq.
    apply qualified_inj in Heq. subst filename_stem.
    destruct Hspecial as [H|[H|[H|[]]]]; injection H as <- <-;
      discriminate Helem. }
  unfold collected_aliases, special_aliases. cbn [fold_left].
  rewrite !In_add_special_alias.
  destruct Hspecial as [H|[H|[H|[]]]]; injection H as <- <-;
    (split;
     [ intros [[[Hin|[Heq Hk]]|[Heq Hk]]|[Heq Hk]];
       try contradiction; try assumption;
       injection Heq as Ha _; apply qualified_inj in Ha; discriminate Ha
     | intros Hk; tauto ]).
Qed.

Lemma special_alias_iff_target_is_a_key_witness :
  In (qualified "ws" "zeke", qualified "ws" "common/zeke")
     (collected_aliases "ws"
        [("common/zeke", (mkPath ["common"] "zeke.hoon" Eof,
                          "hoon/common", "zeke.hoon"))]).
Proof.
  apply (proj2 (@special_alias_iff_target_is_a_key "ws"
                  [("common/zeke", (mkPath ["common"] "zeke.hoon" Eof,
                                    "hoon/common", "zeke.hoon"))]
                  "zeke" "common/zeke" (or_introl eq_refl))).
  now left.
Defined.

(** * The manifest as text *)

(** ** Characters that a built string cannot hold *)

Lemma contains_append c (a b : string) :
  contains c (a ++ b) = contains c a || contains c b.
Proof.
  induction a as [|x a IH]; cbn [append contains]; [reflexivity|].
  now rewrite IH, orb_assoc.
Qed.

Lemma contains_join c sep l :
  contains c sep = false ->
  Forall (fun x => contains c x = false) l ->
  contains c (join sep l) = false.
Proof.
  intros Hsep. induction 1 as [|x l Hx Hl IH]; [reflexivity|].
  destruct l as [|y l]; [exact Hx|].
  rewrite join_cons2, !contains_append, Hx, Hsep, IH. reflexivity.
Qed.

Lemma contains_take c n :
  forall s, contains c s = false -> contains c (take n s) = false.
Proof.
  induction n as [|n IH]; intros [|a s] H; cbn [take contains]; try reflexivity.
  cbn [contains] in H. apply orb_false_iff in H. destruct H as [Ha Hs].
  now rewrite Ha, IH.
Qed.

Lemma contains_replace_from c old new s :
  contains c new = false -> contains c s = false ->
  forall skip, contains c (replace_from old new skip s) = false.
Proof.
  intros Hnew. induction s as [|a s IH]; intros Hs skip;
    cbn [replace_from]; [reflexivity|].
  cbn [contains] in Hs. apply orb_false_iff in Hs. destruct Hs as [Ha Hs].
  destruct skip as [|k]; [|now apply IH].
  destruct (startswith (String a s) old).
  - rewrite contains_append, Hnew. now apply IH.
  - cbn [contains]. rewrite Ha. now apply IH.
Qed.

Lemma contains_quoted c s :
  contains c dq = false -> contains c s = false ->
  contains c (quoted s) = false.
Proof.
  intros Hq Hs. unfold quoted. now rewrite !contains_append, Hq, Hs.
Qed.

Lemma contains_stem c p :
  contains c (name p) = false -> contains c (stem p) = false.
Proof.
  intros H. unfold stem. destruct (rfind "."%char (name p)) as [i|]; [|exact H].
  destruct ((0 <? i) && (i <? String.length (name p) - 1))%nat;
    [now apply contains_take | exact H].
Qed.

Lemma contains_rel_dir_str c p :
  contains c "/" = false ->
  Forall (fun segment => contains c segment = false) (parent_rel p) ->
  contains c (rel_dir_str_of p) = false.
Proof.
  intros Hsep Hp. unfold rel_dir_str_of, str_of_relative.
  destruct (parent_rel p) as [|x l] eqn:E; [reflexivity|].
  destruct (negb (join "/" (x :: l) =? ".")); [|reflexivity].
  now apply contains_join.
Qed.

Lemma contains_package_key c p :
  contains c "/" = false ->
  contains c (name p) = false ->
  Forall (fun segment => contains c segment = false) (parent_rel p) ->
  contains c (package_key_of p) = false.
Proof.
  intros Hsep Hn Hp. unfold package_key_of.
  destruct (truthy (rel_dir_str_of p)); [|now apply contains_stem].
  rewrite !contains_append, Hsep, contains_rel_dir_str, contains_stem
    by assumption.
  reflexivity.
Qed.

Lemma contains_install_path c directory p :
  contains c "/" = false ->
  contains c (dir_name directory) = false ->
  Forall (fun segment => contains c segment = false) (parent_rel p) ->
  contains c (install_path_of directory p) = false.
Proof.
  intros Hsep Hd Hp. unfold install_path_of.
  destruct (truthy (rel_dir_str_of p)); [|exact Hd].
  rewrite !contains_append, Hsep, Hd, contains_rel_dir_str by assumption.
  reflexivity.
Qed.

(** The keys of a discovered map hold no character that no path holds,
    the slash apart. *)
Lemma discovered_keys_free c (directory : Directory) :
  contains c "/" = false ->
  paths_free c directory ->
  forall k, In k (Dict.keys (find_hoon_files directory)) ->
    contains c k = false.
Proof.
  intros Hsep Hfree k Hk. unfold find_hoon_files in Hk.
  apply fold_add_hoon_file_keys in Hk. destruct Hk as [[]|[p [Hp <-]]].
  destruct (Hfree p Hp). now apply contains_package_key.
Qed.

Lemma discovered_records_free c (directory : Directory) :
  contains c "/" = false ->
  contains c (dir_name directory) = false ->
  paths_free c directory ->
  forall k p ip fn,
    In (k, (p, ip, fn)) (find_hoon_files directory) ->
    contains c k = false /\ contains c ip = false /\ contains c fn = false.
Proof.
  intros Hsep Hd Hfree k p ip fn Hin. revert Hin. unfold find_hoon_files.
  apply (fold_add_hoon_file_records directory
           (fun item =>
              let '(k, (p, ip, fn)) := item in
              contains c k = false /\ contains c ip = false
              /\ contains c fn = false)
           (rglob_hoon directory) ); [|intros item []].
  intros q Hq. destruct (Hfree q Hq) as [Hn Hp].
  split; [now apply contains_package_key|].
  split; [now apply contains_install_path | exact Hn].
Qed.

(** ** Lines and quoted strings *)

Lemma text_lines_join lines :
  lines <> [] ->
  Forall (fun l => contains lf_char l = false) lines ->
  text_lines (join lf lines) = lines.
Proof.
  intros Hne Hl. unfold text_lines.
  induction Hl as [|x l Hx Hl IH]; [congruence|].
  destruct l as [|y l].
  - cbn [join]. now apply split_no_sep.
  - rewrite join_cons2.
    change (x ++ lf ++ join lf (y :: l))
      with (x ++ String lf_char (join lf (y :: l))).
    rewrite split_app_sep, (split_no_sep _ _ Hx), IH by discriminate.
    reflexivity.
Qed.

Lemma quoted_cons s t : quoted s ++ t = String dq_char (s ++ String dq_char t).
Proof.
  unfold quoted, dq. rewrite !append_assoc. reflexivity.
Qed.

Lemma odd_pieces_cons3 a x y r :
  odd_pieces (a :: x :: y :: r) = x :: odd_pieces (y :: r).
Proof. reflexivity. Qed.

(** A list of quoted names, separated by a comma and a space, between two
    texts without quotes, reads back as the names. *)
Lemma quoted_strings_list names :
  Forall (fun n => contains dq_char n = false) names ->
  forall pre post,
    contains dq_char pre = false ->
    contains dq_char post = false ->
    quoted_strings (pre ++ join ", " (map quoted names) ++ post) = names.
Proof.
  unfold quoted_strings.
  induction 1 as [|n names Hn Hnames IH]; intros pre post Hpre Hpost.
  - cbn [map join append]. rewrite split_no_sep; [reflexivity|].
    now rewrite contains_append, Hpre, Hpost.
  - pose proof (@split_by_not_nil (Ascii.eqb dq_char)) as Hne.
    destruct names as [|m names].
    + cbn [map join]. rewrite quoted_cons.
      rewrite split_app_sep, (split_no_sep _ _ Hpre).
      rewrite split_app_sep, (split_no_sep _ _ Hn), (split_no_sep _ _ Hpost).
      reflexivity.
    + change (map quoted (n :: m :: names))
        with (quoted n :: map quoted (m :: names)).
      change (join ", " (quoted n :: map quoted (m :: names)))
        with (quoted n ++ ", " ++ join ", " (map quoted (m :: names))).
      rewrite !append_assoc, quoted_cons.
      rewrite split_app_sep, (split_no_sep _ _ Hpre).
      rewrite split_app_sep, (split_no_sep _ _ Hn).
      specialize (IH ", " post eq_refl Hpost).
      cbn [app].
      specialize (Hne (", " ++ join ", " (map quoted (m :: names)) ++ post)).
      fold (split dq_char
              (", " ++ join ", " (map quoted (m :: names)) ++ post)) in Hne.
      destruct (split dq_char
                  (", " ++ join ", " (map quoted (m :: names)) ++ post))
        as [|y r]; [congruence|].
      rewrite odd_pieces_cons3, IH. reflexivity.
Qed.

Lemma quoted_strings_one pre n :
  contains dq_char pre = false ->
  contains dq_char n = false ->
  quoted_strings (pre ++ quoted n) = [n].
Proof.
  intros Hpre Hn.
  pose proof (@quoted_strings_list [n] (Forall_cons _ Hn (Forall_nil _))
                pre EmptyString Hpre eq_refl) as H.
  cbn [map join] in H.
  replace (quoted n ++ "") with (quoted n) in H; [exact H|].
  clear. induction (quoted n) as [|a s IH]; cbn [append]; [reflexivity|].
  now rewrite <- IH.
Qed.

(** ** The emitted lines hold no line feed *)

Lemma fold_left_app_flat_map {A B} (f : A -> list B) l :
  forall acc,
    fold_left (fun ls a => ls ++ f a)%list l acc = (acc ++ flat_map f l)%list.
Proof.
  induction l as [|a l IH]; intros acc; cbn [fold_left flat_map].
  - now rewrite app_nil_r.
  - now rewrite IH, app_assoc.
Qed.

Lemma alias_section_flat_map aliases :
  alias_section aliases
  = match aliases with
    | [] => []
    | _ => ([rule_line; "# Aliases"; rule_line; ""]
            ++ flat_map alias_lines aliases)%list
    end.
Proof.
  unfold alias_section. destruct aliases as [|a l]; [reflexivity|].
  now rewrite fold_left_app_flat_map.
Qed.

Lemma collected_aliases_no_line_feed workspace_name (files : Files) :
  contains lf_char workspace_name = false ->
  (forall k p ip fn, In (k, (p, ip, fn)) files ->
     contains lf_char k = false /\ contains lf_char fn = false) ->
  forall a t, In (a, t) (collected_aliases workspace_name files) ->
    contains lf_char a = false /\ contains lf_char t = false.
Proof.
  intros Hws Hitems a t.
  assert (Hq : forall s, contains lf_char s = false ->
                 contains lf_char (qualified workspace_name s) = false).
  { intros s Hs. unfold qualified. now rewrite !contains_append, Hws, Hs. }
  unfold collected_aliases, special_aliases. cbn [fold_left].
  rewrite !In_add_special_alias.
  intros [[[Hin|[Heq _]]|[Heq _]]|[Heq _]];
    try (injection Heq as -> ->; split; apply Hq; reflexivity).
  apply in_flat_map in Hin. destruct Hin as [[k [[p ip] fn]] [Hitem Hx]].
  apply (proj1 (sorted_items_In _ _)) in Hitem. unfold Dict.items in Hitem. destruct (Hitems _ _ _ _ Hitem) as [Hk Hfn].
  unfold package_aliases in Hx.
  match type of Hx with
  | In _ (if ?b then _ else _) => destruct b; [|destruct Hx]
  end.
  destruct Hx as [Heq|[]]. injection Heq as <- <-.
  split; apply Hq; [|exact Hk].
  now apply contains_replace_from.
Qed.

Lemma registry_lines_no_line_feed
  workspace_name git_url ref description root_path (files : Files) graph :
  contains lf_char workspace_name = false ->
  contains lf_char git_url = false ->
  contains lf_char ref = false ->
  contains lf_char description = false ->
  contains lf_char root_path = false ->
  (forall k p ip fn, In (k, (p, ip, fn)) files ->
     contains lf_char k = false /\ contains lf_char ip = false
     /\ contains lf_char fn = false) ->
  (forall k d, In d (graph_get graph k) -> contains lf_char d = false) ->
  Forall (fun l => contains lf_char l = false)
    (registry_lines workspace_name git_url ref description root_path
       files graph).
Proof.
  intros Hws Hgit Href Hdesc Hroot Hitems Hdeps.
  assert (Hq : forall s, contains lf_char s = false ->
                 contains lf_char (quoted s) = false).
  { intros s Hs. now apply contains_quoted. }
  assert (Hqual : forall s, contains lf_char s = false ->
                    contains lf_char (qualified workspace_name s) = false).
  { intros s Hs. unfold qualified. now rewrite !contains_append, Hws, Hs. }
  rewrite registry_lines_parts. apply Forall_app. split; [|apply Forall_app; split].
  - unfold heading_lines.
    repeat (constructor;
            [rewrite ?contains_append, ?Hq, ?Hws by assumption; reflexivity|]).
    constructor.
  - apply Forall_forall. intros l Hl. apply in_flat_map in Hl.
    destruct Hl as [[k [[p ip] fn]] [Hitem Hl]].
    apply (proj1 (sorted_items_In _ _)) in Hitem. unfold Dict.items in Hitem.
    destruct (Hitems _ _ _ _ Hitem) as [Hk [Hip Hfn]].
    unfold package_lines in Hl. cbn [In] in Hl.
    destruct Hl as [<-|[<-|[<-|[<-|[<-|[<-|[<-|[]]]]]]]];
      try (rewrite ?contains_append, ?Hq by auto; reflexivity).
    destruct (graph_get graph k) as [|d deps] eqn:E; [reflexivity|].
    rewrite !contains_append, contains_join; [reflexivity | reflexivity |].
    apply Forall_forall. intros x Hx. apply in_map_iff in Hx.
    destruct Hx as [d' [<- Hd']]. apply Hq, Hqual, (Hdeps k). now rewrite E.
  - rewrite alias_section_flat_map.
    pose proof (@collected_aliases_no_line_feed workspace_name files Hws)
      as Hal.
    destruct (collected_aliases workspace_name files) as [|a0 l0] eqn:E;
      [constructor|].
    apply Forall_app. split; [repeat constructor|].
    apply Forall_forall. intros l Hl. apply in_flat_map in Hl.
    destruct Hl as [[a t] [Hin Hl]].
    destruct (Hal (fun k p ip fn H => let '(conj Hk (conj _ Hfn)) :=
                                        Hitems k p ip fn H in conj Hk Hfn)
                a t Hin) as [Ha Ht].
    cbn [alias_lines In] in Hl.
    destruct Hl as [<-|[<-|[<-|[<-|[]]]]];
      try (rewrite ?contains_append, ?Hq by auto; reflexivity).
Qed.

(** ** What a reader finds in the emitted lines *)

Lemma dependency_names_app l1 l2 :
  dependency_names_of_lines (l1 ++ l2)
  = (dependency_names_of_lines l1 ++ dependency_names_of_lines l2)%list.
Proof. apply flat_map_app. Qed.

Lemma dependency_names_heading workspace_name git_url ref description root_path :
  dependency_names_of_lines
    (heading_lines workspace_name git_url ref description root_path) = [].
Proof. reflexivity. Qed.

Lemma dependency_names_alias_section aliases :
  dependency_names_of_lines (alias_section aliases) = [].
Proof.
  rewrite alias_section_flat_map. destruct aliases as [|a0 l0]; [reflexivity|].
  change (dependency_names_of_lines
            ([rule_line; "# Aliases"; rule_line; ""]
             ++ flat_map alias_lines (a0 :: l0)))
    with (dependency_names_of_lines (flat_map alias_lines (a0 :: l0))).
  generalize (a0 :: l0). intros l.
  induction l as [|[a t] l IH]; [reflexivity|].
  cbn [flat_map]. rewrite dependency_names_app, IH. reflexivity.
Qed.

Lemma dependencies_line_names workspace_name deps :
  contains dq_char workspace_name = false ->
  Forall (fun d => contains dq_char d = false) deps ->
  quoted_strings
    ("dependencies = ["
     ++ join ", " (map (fun d => quoted (qualified workspace_name d)) deps)
     ++ "]")
  = map (qualified workspace_name) deps.
Proof.
  intros Hws Hdeps. rewrite <- (map_map (qualified workspace_name) quoted).
  apply quoted_strings_list; try reflexivity.
  apply Forall_forall. intros n Hn. apply in_map_iff in Hn.
  destruct Hn as [d [<- Hd]]. rewrite Forall_forall in Hdeps.
  unfold qualified. now rewrite !contains_append, Hws, (Hdeps d Hd).
Qed.

Lemma dependency_names_block workspace_name graph item :
  contains dq_char workspace_name = false ->
  Forall (fun d => contains dq_char d = false) (graph_get graph (fst item)) ->
  dependency_names_of_lines (package_lines workspace_name graph item)
  = map (qualified workspace_name) (graph_get graph (fst item)).
Proof.
  intros Hws Hdeps. destruct item as [k [[p ip] fn]]. cbn [fst] in *.
  unfold package_lines.
  destruct (graph_get graph k) as [|d deps] eqn:E; [reflexivity|].
  unfold dependency_names_of_lines. cbn [flat_map].
  change (startswith "[[package]]" "dependencies = ") with false.
  change (startswith ("name = " ++ quoted (qualified workspace_name k))
            "dependencies = ") with false.
  change (startswith ("workspace = " ++ quoted workspace_name)
            "dependencies = ") with false.
  change (startswith ("path = " ++ quoted ip) "dependencies = ") with false.
  change (startswith ("file = " ++ quoted fn) "dependencies = ") with false.
  change (startswith "" "dependencies = ") with false.
  cbv iota. cbn [app].
  match goal with
  | |- context [startswith ?l "dependencies = "] =>
      change (startswith l "dependencies = ") with true
  end.
  cbv iota. rewrite app_nil_r.
  now apply dependencies_line_names.
Qed.

Lemma package_names_heading
  workspace_name git_url ref description root_path rest :
  package_names_of_lines
    (heading_lines workspace_name git_url ref description root_path ++ rest)
  = package_names_of_lines rest.
Proof. reflexivity. Qed.

Lemma package_names_alias_lines alias rest :
  package_names_of_lines (alias_lines alias ++ rest)
  = package_names_of_lines rest.
Proof. destruct alias as [a t]. reflexivity. Qed.

Lemma package_names_alias_section aliases :
  package_names_of_lines (alias_section aliases) = [].
Proof.
  rewrite alias_section_flat_map. destruct aliases as [|a0 l0]; [reflexivity|].
  change (package_names_of_lines
            ([rule_line; "# Aliases"; rule_line; ""]
             ++ flat_map alias_lines (a0 :: l0)))
    with (package_names_of_lines (flat_map alias_lines (a0 :: l0))).
  generalize (a0 :: l0). intros l.
  induction l as [|a l IH]; [reflexivity|].
  cbn [flat_map]. now rewrite package_names_alias_lines.
Qed.

Lemma package_names_block workspace_name graph item rest :
  contains dq_char workspace_name = false ->
  contains dq_char (fst item) = false ->
  package_names_of_lines (package_lines workspace_name graph item ++ rest)
  = qualified workspace_name (fst item) :: package_names_of_lines rest.
Proof.
  intros Hws Hk. destruct item as [k [[p ip] fn]]. cbn [fst] in *.
  assert (Hname : quoted_strings
                    ("name = " ++ quoted (qualified workspace_name k))
                  = [qualified workspace_name k]).
  { apply quoted_strings_one; [reflexivity|].
    unfold qualified. now rewrite !contains_append, Hws, Hk. }
  unfold package_lines.
  destruct (graph_get graph k) as [|d deps];
    cbn [app package_names_of_lines];
    change ("[[package]]" =? "[[package]]") with true;
    change (startswith ("name = " ++ quoted (qualified workspace_name k))
              "name = ") with true;
    cbv iota; rewrite Hname; reflexivity.
Qed.

Lemma package_names_blocks workspace_name graph items rest :
  contains dq_char workspace_name = false ->
  Forall (fun item => contains dq_char (fst item) = false) items ->
  package_names_of_lines
    (flat_map (package_lines workspace_name graph) items ++ rest)
  = (map (fun item => qualified workspace_name (fst item)) items
     ++ package_names_of_lines rest)%list.
Proof.
  intros Hws. induction 1 as [|item items Hitem Hitems IH]; [reflexivity|].
  cbn [flat_map map]. rewrite <- app_assoc.
  rewrite package_names_block by assumption. now rewrite IH.
Qed.

Lemma dependency_names_blocks workspace_name graph items :
  contains dq_char workspace_name = false ->
  Forall (fun item =>
            Forall (fun d => contains dq_char d = false)
              (graph_get graph (fst item))) items ->
  dependency_names_of_lines
    (flat_map (package_lines workspace_name graph) items)
  = flat_map (fun item =>
                map (qualified workspace_name) (graph_get graph (fst item)))
      items.
Proof.
  intros Hws. induction 1 as [|item items Hitem Hitems IH]; [reflexivity|].
  cbn [flat_map]. rewrite dependency_names_app, IH.
  now rewrite dependency_names_block.
Qed.

Lemma graph_get_sound (directory scan_dir : Directory) k d :
  In d (graph_get (fst (build_dependency_graph (find_hoon_files directory)
                          scan_dir)) k) ->
  In d (Dict.keys (find_hoon_files directory)).
Proof.
  unfold graph_get.
  rewrite build_dependency_graph_nodes by apply find_hoon_files_NoDup.
  destruct (Dict.get k _) as [deps|] eqn:E; [|intros []].
  apply get_map_items_inv in E. destruct E as [rec [_ ->]].
  apply adjacency_sound.
Qed.

Lemma registry_lines_not_nil
  workspace_name git_url ref description root_path (files : Files) graph :
  registry_lines workspace_name git_url ref description root_path files graph
  <> [].
Proof. rewrite registry_lines_parts. discriminate. Qed.

(** ** Claims about the text of the manifest *)

(** C8, as the code has it: when no name written into the manifest holds a
    line feed, and neither the workspace name nor any name or segment of an
    enumerated path holds a double quote, the lines of the emitted text are
    the emitted lines, the package records read from the text are named
    [workspace/key] for the discovered keys in ascending order, the names
    read from the dependency lists are the [workspace/d] for the keys [d]
    of the adjacency lists, and each of them is the name of a package
    record of the same text. *)
Theorem manifest_text_dependency_names_have_records
  (directory : Directory) workspace_name git_url ref description root_path :
  let files := find_hoon_files directory in
  let graph := fst (build_dependency_graph files directory) in
  let text :=
    generate_registry_toml workspace_name git_url ref description root_path
      files graph directory in
  contains lf_char workspace_name = false ->
  contains lf_char git_url = false ->
  contains lf_char ref = false ->
  contains lf_char description = false ->
  contains lf_char root_path = false ->
  contains lf_char (dir_name directory) = false ->
  paths_free lf_char directory ->
  contains dq_char workspace_name = false ->
  paths_free dq_char directory ->
  text_lines text
  = registry_lines workspace_name git_url ref description root_path
      files graph
  /\ package_names_of_lines (text_lines text)
     = map (fun item => qualified workspace_name (fst item))
         (sorted_items (Dict.items files))
  /\ dependency_names_of_lines (text_lines text)
     = flat_map (fun item =>
                   map (qualified workspace_name) (graph_get graph (fst item)))
         (sorted_items (Dict.items files))
  /\ forall n,
       In n (dependency_names_of_lines (text_lines text)) ->
       In n (package_names_of_lines (text_lines text)).
Proof.
  intros files graph text Hws Hgit Href Hdesc Hroot Hdir Hlf Hqws Hdq.
  assert (Hkeys_lf : forall k, In k (Dict.keys files) ->
                       contains lf_char k = false)
    by (apply discovered_keys_free; [reflexivity | assumption]).
  assert (Hkeys_dq : forall k, In k (Dict.keys files) ->
                       contains dq_char k = false)
    by (apply discovered_keys_free; [reflexivity | assumption]).
  assert (Hedges : forall k d, In d (graph_get graph k) ->
                     In d (Dict.keys files))
    by (intros k d; apply graph_get_sound).
  assert (Hlines : text_lines text
                   = registry_lines workspace_name git_url ref description
                       root_path files graph).
  { unfold text, generate_registry_toml. apply text_lines_join.
    - apply registry_lines_not_nil.
    - apply registry_lines_no_line_feed; try assumption.
      + intros k p ip fn Hin.
        apply (@discovered_records_free lf_char directory eq_refl Hdir
                 Hlf k p ip fn Hin).
      + intros k d Hd. apply Hkeys_lf. now apply (Hedges k). }
  assert (Hsorted : forall item, In item (sorted_items (Dict.items files)) ->
                      In (fst item) (Dict.keys files)).
  { intros item Hin. apply (proj1 (sorted_items_In _ _)) in Hin.
    now apply in_map. }
  assert (Hnames : package_names_of_lines (text_lines text)
                   = map (fun item => qualified workspace_name (fst item))
                       (sorted_items (Dict.items files))).
  { rewrite Hlines, registry_lines_parts, package_names_heading.
    rewrite package_names_blocks, package_names_alias_section, app_nil_r;
      [reflexivity | assumption |].
    apply Forall_forall. intros item Hin. now apply Hkeys_dq, Hsorted. }
  assert (Hdeps : dependency_names_of_lines (text_lines text)
                  = flat_map (fun item =>
                                map (qualified workspace_name)
                                  (graph_get graph (fst item)))
                      (sorted_items (Dict.items files))).
  { rewrite Hlines, registry_lines_parts, !dependency_names_app.
    rewrite dependency_names_heading, dependency_names_alias_section.
    rewrite app_nil_r. cbn [app].
    apply dependency_names_blocks; [assumption|].
    apply Forall_forall. intros item _. apply Forall_forall.
    intros d Hd. now apply Hkeys_dq, (Hedges (fst item)). }
  repeat split; try assumption.
  intros n Hn. rewrite Hdeps in Hn. rewrite Hnames.
  apply in_flat_map in Hn. destruct Hn as [item [_ Hn]].
  apply in_map_iff in Hn. destruct Hn as [d [<- Hd]].
  apply Hedges in Hd. apply mem_In in Hd.
  destruct (mem_get _ _ Hd) as [rec Hrec]. apply get_Some_In in Hrec.
  apply (in_map (fun item => qualified workspace_name (fst item))
           (sorted_items (Dict.items files)) (d, rec)).
  now apply sorted_items_In.
Qed.

Lemma manifest_text_dependency_names_have_records_witness :
  In "ws/y"
    (package_names_of_lines
       (text_lines
          (generate_registry_toml "ws" "url" "rev" "" "hoon"
             (find_hoon_files same_dir_tree)
             (fst (build_dependency_graph (find_hoon_files same_dir_tree)
                     same_dir_tree))
             same_dir_tree))).
Proof.
  assert (Hfree : forall c,
            contains c "x.hoon" = false -> contains c "y.hoon" = false ->
            contains c "a" = false -> paths_free c same_dir_tree).
  { intros c Hx Hy Ha p Hp. cbn in Hp.
    destruct Hp as [<-|[<-|[<-|[]]]]; cbn [name parent_rel];
      repeat constructor; assumption. }
  apply (proj2 (proj2 (proj2
           (@manifest_text_dependency_names_have_records same_dir_tree
              "ws" "url" "rev" "" "hoon"
              eq_refl eq_refl eq_refl eq_refl eq_refl eq_refl
              (Hfree lf_char eq_refl eq_refl eq_refl) eq_refl
              (Hfree dq_char eq_refl eq_refl eq_refl))))).
  vm_compute. tauto.
Defined.

(** C8, as stated, fails.  The directory [x", "ws] gives the key
    [x", "ws/ghost]; the dependency list of [app] then reads as the two
    names [ws/x] and [ws/ghost], and no package record of the text, and no
    discovered key, has the name [ws/ghost].  A line feed in a directory
    name does as much without any quote: the dependency list of [app] is
    cut in two lines, the second of which starts with [dependencies = ] and
    reads as the name made of a comma and a space. *)
Lemma quoted_key_lists_unrecorded_name :
  let files := find_hoon_files quote_tree in
  let graph := fst (build_dependency_graph files quote_tree) in
  let text :=
    generate_registry_toml "ws" "url" "rev" "" "hoon" files graph quote_tree in
  let files' := find_hoon_files line_feed_tree in
  let graph' := fst (build_dependency_graph files' line_feed_tree) in
  let text' :=
    generate_registry_toml "ws" "url" "rev" "" "hoon" files' graph'
      line_feed_tree in
  Dict.keys files = ["x" ++ dq ++ ", " ++ dq ++ "ws/ghost"; "app"]
  /\ graph_get graph "app" = ["x" ++ dq ++ ", " ++ dq ++ "ws/ghost"]
  /\ In ("dependencies = [" ++ dq ++ "ws/x" ++ dq ++ ", " ++ dq ++ "ws/ghost"
         ++ dq ++ "]") (text_lines text)
  /\ dependency_names_of_lines (text_lines text) = ["ws/x"; "ws/ghost"]
  /\ ~ In "ws/ghost" (package_names_of_lines (text_lines text))
  /\ (forall k, In k (Dict.keys files) -> qualified "ws" k <> "ws/ghost")
  /\ paths_free dq_char line_feed_tree
  /\ graph_get graph' "app"
     = ["a" ++ lf ++ "dependencies = x/ghost"; "other"]
  /\ In ("dependencies = x/ghost" ++ dq ++ ", " ++ dq ++ "ws/other" ++ dq
         ++ "]") (text_lines text')
  /\ dependency_names_of_lines (text_lines text') = [", "]
  /\ ~ In ", " (package_names_of_lines (text_lines text')).
Proof.
  cbv zeta. split; [reflexivity|]. split; [reflexivity|].
  split; [vm_compute; tauto|]. split; [reflexivity|]. split.
  { vm_compute. intros [H|[H|[]]]; discriminate H. }
  split.
  { intros k Hk. vm_compute in Hk.
    destruct Hk as [<-|[<-|[]]]; vm_compute; discriminate. }
  split.
  { intros p Hp. cbn in Hp.
    destruct Hp as [<-|[<-|[<-|[]]]]; cbn [name parent_rel];
      repeat constructor. }
  split; [reflexivity|]. split; [vm_compute; tauto|].
  split; [reflexivity|].
  vm_compute. intros [H|[H|[]]]; discriminate H.
Qed.

(** X17: when no name written into the manifest holds a line feed, the text
    of the manifest has exactly one line [[[package]]] for each entry of the
    file map and one line [[[alias]]] for each collected alias. *)
Theorem manifest_text_has_one_block_per_entry
  workspace_name git_url ref description root_path (files : Files) graph
  (scan_dir : Directory) :
  let text :=
    generate_registry_toml workspace_name git_url ref description root_path
      files graph scan_dir in
  contains lf_char workspace_name = false ->
  contains lf_char git_url = false ->
  contains lf_char ref = false ->
  contains lf_char description = false ->
  contains lf_char root_path = false ->
  (forall k p ip fn, In (k, (p, ip, fn)) files ->
     contains lf_char k = false /\ contains lf_char ip = false
     /\ contains lf_char fn = false) ->
  (forall k d, In d (graph_get graph k) -> contains lf_char d = false) ->
  count_line "[[package]]" (text_lines text) = List.length files
  /\ count_line "[[alias]]" (text_lines text)
     = List.length (collected_aliases workspace_name files).
Proof.
  intros text Hws Hgit Href Hdesc Hroot Hitems Hdeps.
  unfold text, generate_registry_toml.
  rewrite text_lines_join.
  - apply manifest_has_one_block_per_entry.
  - apply registry_lines_not_nil.
  - now apply registry_lines_no_line_feed.
Qed.

Lemma manifest_text_has_one_block_per_entry_witness :
  count_line "[[package]]"
    (text_lines
       (generate_registry_toml "ws" "url" "rev" "" "hoon"
          [("common/zeke", (mkPath ["common"] "zeke.hoon" Eof,
                            "hoon/common", "zeke.hoon"))]
          [("common/zeke", [])] (mkDirectory "hoon" [])))
  = 1.
Proof.
  apply (@manifest_text_has_one_block_per_entry "ws" "url" "rev" "" "hoon"
           [("common/zeke", (mkPath ["common"] "zeke.hoon" Eof,
                             "hoon/common", "zeke.hoon"))]
           [("common/zeke", [])] (mkDirectory "hoon" [])
           eq_refl eq_refl eq_refl eq_refl eq_refl).
  - intros k p ip fn [H|[]]. injection H as <- <- <- <-.
    repeat split; reflexivity.
  - intros k d. unfold graph_get. cbn [Dict.get].
    destruct (k =? "common/zeke"); intros [].
Defined.

(** C7, as stated, fails: the text after a star is not trimmed again, so
    the piece [* foo] gives the token [ foo] with its space; and the pieces
    come from the words of the line joined by single spaces, so a tab and
    spaces between two words of a piece become one space in the token. *)
Lemma starred_specifier_keeps_its_space :
  fst (get_dependencies
         (mkPath [] "app.hoon" (Line ("/+  * foo" ++ lf) Eof)))
  = [" foo"]
  /\ add_specifier [] "* foo" = [" foo"]
  /\ strip " foo" <> " foo"
  /\ fst (get_dependencies
            (mkPath [] "app.hoon"
               (Line ("/+  foo" ++ String (ascii_of_nat 9) "   bar" ++ lf)
                  Eof)))
     = ["foo bar"]
  /\ strip ("foo" ++ String (ascii_of_nat 9) "   bar") <> "foo bar".
Proof.
  repeat split; try reflexivity; vm_compute; discriminate.
Qed.
